(** * Superstore Explorer: the filtering and aggregation pipeline

    A shallow embedding of [my_dashboard.py].  The script loads a CSV file
    into a pandas DataFrame, offers two drop-down filters (Region and
    Category), filters the frame by exact equality on the chosen values and
    shows three summary numbers.

    Modelling choices, all read off the source:
    - a Python [str] is a sequence of Unicode code points; [==] is equality of
      the sequences and [<] the lexicographic order on code points;
    - a DataFrame is the ordered list of its rows; a row is a record with the
      six columns the script touches;
    - [float64] cells are the kernel's binary64 floats; a column is added up
      the way numpy adds up an array, in blocks and by halves;
    - pandas objects live in a heap ([gmap] from locations to frames) where
      mutation is at stake, and are plain values elsewhere;
    - what the script prints or renders is a trace of events. *)

From Stdlib Require Import ZArith NArith List Bool Ascii String Floats Lia.
From Stdlib Require Import Sorting.Sorted Sorting.Mergesort Orders.
From stdpp Require Import base option list gmap.
Import ListNotations.

Local Open Scope list_scope.

(** ** Python strings *)

Definition str : Type := list N.

(** A string literal of the script, as its code points. *)
Definition py (s : string) : str :=
  List.map N_of_ascii (list_ascii_of_string s).

Fixpoint str_compare (a b : str) : comparison :=
  match a, b with
  | [], [] => Eq
  | [], _ :: _ => Lt
  | _ :: _, [] => Gt
  | x :: a', y :: b' =>
      match N.compare x y with
      | Eq => str_compare a' b'
      | o => o
      end
  end.

(** [a == b], [a != b], [a < b] and [a <= b] on [str]. *)
Definition str_eqb (a b : str) : bool :=
  match str_compare a b with Eq => true | _ => false end.

Definition str_neqb (a b : str) : bool := negb (str_eqb a b).

Definition str_ltb (a b : str) : bool :=
  match str_compare a b with Lt => true | _ => false end.

Definition str_leb (a b : str) : bool :=
  match str_compare a b with Gt => false | _ => true end.

(** The sentinel of the two drop-downs. *)
Definition All : str := py "All".

(** ** Tables *)

(** A calendar date; [None] in a date cell is pandas' [NaT]. *)
Record Timestamp := mkTimestamp { ts_year : Z; ts_month : Z; ts_day : Z }.

(** A row, polymorphic in the content of its [Order Date] cell: text as read
    from the file, a date-or-[NaT] after [get_data] converted the column. *)
Record Row (D : Type) := mkRow {
  Region : str;
  Category : str;
  Order_Date : D;
  Sales : float;
  Profit : float;
  Discount : float
}.
Arguments mkRow {D}.
Arguments Region {D}.
Arguments Category {D}.
Arguments Order_Date {D}.
Arguments Sales {D}.
Arguments Profit {D}.
Arguments Discount {D}.

Definition DataFrame (D : Type) : Type := list (Row D).

Definition Table : Type := DataFrame (option Timestamp).

(** ** pandas operations used by the script *)

(** [df[name]]: a column as a Series. *)
Definition column {D A} (f : Row D -> A) (df : DataFrame D) : list A :=
  List.map f df.

(** [series == value]: the element-wise comparison, a boolean Series. *)
Definition Series_eq (s : list str) (v : str) : list bool :=
  List.map (fun x => str_eqb x v) s.

(** [df[mask]]: the rows whose mask entry is [True], in the frame's order. *)
Fixpoint getitem_mask {D} (df : DataFrame D) (mask : list bool) : DataFrame D :=
  match df, mask with
  | row :: df', b :: mask' =>
      if b then row :: getitem_mask df' mask' else getitem_mask df' mask'
  | _, _ => []
  end.

(** [df.copy()], as a value. *)
Definition copy {D} (df : DataFrame D) : DataFrame D := df.

(** [df.empty]. *)
Definition empty {D} (df : DataFrame D) : bool :=
  match df with [] => true | _ :: _ => false end.

(** [series.unique()]: the values in order of first appearance; pandas keeps
    a hash table of the values met so far, here the list [seen]. *)
Fixpoint unique_from (seen : list str) (s : list str) : list str :=
  match s with
  | [] => []
  | x :: s' =>
      if existsb (str_eqb x) seen then unique_from seen s'
      else x :: unique_from (x :: seen) s'
  end.

Definition Series_unique (s : list str) : list str := unique_from [] s.

(** Python's [sorted] on a list of [str]: a stable merge sort by [<=]. *)
Module StrOrder <: TotalLeBool.
Definition t : Type := str.
Definition leb : t -> t -> bool := str_leb.
Lemma str_compare_antisym (a b : str) :
  str_compare b a = CompOpp (str_compare a b).
Proof.
  revert b; induction a as [|x a IH]; intros [|y b]; simpl; try reflexivity.
  rewrite (N.compare_antisym x y).
  destruct (N.compare x y); simpl; auto.
Qed.
Theorem leb_total (a1 a2 : t) : is_true (leb a1 a2) \/ is_true (leb a2 a1).
Proof.
  unfold leb, str_leb. rewrite (str_compare_antisym a1 a2).
  destruct (str_compare a1 a2); simpl; auto.
Qed.
End StrOrder.

Module StrSort := Sort StrOrder.

Definition sorted (l : list str) : list str := StrSort.sort l.

(** [Series.sum()] and [Series.mean()] with the default [skipna=True], as
    pandas' own [nanops] computes them for a float64 column (the optional
    bottleneck package is not used): the missing values (NaN) are replaced
    by [0.0], numpy adds up the array, and the mean divides the sum by the
    number of values that are not missing. *)
Definition notna (x : float) : bool := negb (PrimFloat.is_nan x).

(** The array pandas hands to numpy: the mask of missing values filled with
    [0.0]. *)
Definition fillna0 (x : float) : float :=
  if PrimFloat.is_nan x then 0%float else x.

(** numpy's sum of a float64 array is a pairwise summation.  Up to 128
    values are added in eight interleaved accumulators, [r[j] += a[i + j]],
    eight values at a time. *)
Fixpoint add_lanes (r a : list float) : list float :=
  match r, a with
  | x :: r', y :: a' => (x + y)%float :: add_lanes r' a'
  | _, _ => r
  end.

(** [for (i = 8; i < n - (n % 8); i += 8)]: the accumulators after [blocks]
    rounds, and the values that are left. *)
Fixpoint unrolled_loop (blocks : nat) (r a : list float) : list float * list float :=
  match blocks with
  | O => (r, a)
  | S blocks' => unrolled_loop blocks' (add_lanes r (firstn 8 a)) (skipn 8 a)
  end.

(** The branch for 8 to 128 values: the accumulators start as the first
    eight values, are combined two by two, and the values beyond the last
    full block of eight are added one by one. *)
Definition block_sum (a : list float) : float :=
  let n := List.length a in
  let '(r, rest) := unrolled_loop (n / 8 - 1) (firstn 8 a) (skipn 8 a) in
  let res :=
    match r with
    | [r0; r1; r2; r3; r4; r5; r6; r7] =>
        (((r0 + r1) + (r2 + r3)) + ((r4 + r5) + (r6 + r7)))%float
    | _ => PrimFloat.nan
    end in
  fold_left PrimFloat.add rest res.

(** The pairwise summation: fewer than 8 values are added one by one from
    [-0.0]; more than 128 are split in two halves, the first a multiple of
    eight long, that are summed apart.  [fuel] bounds the depth of the
    recursion; the length of the array is always enough. *)
Fixpoint pairwise_sum (fuel : nat) (a : list float) : float :=
  let n := List.length a in
  if (n <? 8)%nat then fold_left PrimFloat.add a PrimFloat.neg_zero
  else if (n <=? 128)%nat then block_sum a
  else match fuel with
       | O => PrimFloat.nan
       | S fuel' =>
           let n2 := (n / 2)%nat in
           let n2 := (n2 - n2 mod 8)%nat in
           (pairwise_sum fuel' (firstn n2 a) + pairwise_sum fuel' (skipn n2 a))%float
       end.

(** [np.add.reduce]: the pairwise sum is added to the initial value [0.0]. *)
Definition add_reduce (a : list float) : float :=
  (0 + pairwise_sum (List.length a) a)%float.

Definition Series_sum (s : list float) : float :=
  add_reduce (List.map fillna0 s).

(** The number of values that are not missing. *)
Definition Series_count (s : list float) : nat :=
  List.length (List.filter notna s).

(** A count as a float64, rounded to nearest (ties to even). *)
Definition float_of_count (n : nat) : float :=
  SF2Prim (binary_normalize prec emax (Z.of_nat n) 0 false).

(** [Series.mean()]: the sum over the count of the values that are not
    missing, NaN when there is none. *)
Definition Series_mean (s : list float) : float :=
  let count := Series_count s in
  if (0 <? count)%nat then (Series_sum s / float_of_count count)%float
  else PrimFloat.nan.

(** ** Sidebar options (lines 43 and 47) *)

(** [sorted(store_data[name].unique())]. *)
Definition distinctValues {D} (f : Row D -> str) (df : DataFrame D) : list str :=
  sorted (Series_unique (column f df)).

Definition region_options {D} (store_data : DataFrame D) : list str :=
  [All] ++ distinctValues Region store_data.

Definition category_options {D} (store_data : DataFrame D) : list str :=
  [All] ++ distinctValues Category store_data.

(** ** Filtering logic (lines 52 to 60) *)

(** The block guarded by [if chosen_region != 'All']. *)
Definition filter_region {D} (chosen_region : str) (df : DataFrame D) : DataFrame D :=
  if str_neqb chosen_region All
  then getitem_mask df (Series_eq (column Region df) chosen_region)
  else df.

(** The block guarded by [if chosen_category != 'All']. *)
Definition filter_category {D} (chosen_category : str) (df : DataFrame D) : DataFrame D :=
  if str_neqb chosen_category All
  then getitem_mask df (Series_eq (column Category df) chosen_category)
  else df.

Definition filtered_data {D} (store_data : DataFrame D)
    (chosen_region chosen_category : str) : DataFrame D :=
  let filtered_data := copy store_data in
  let filtered_data := filter_region chosen_region filtered_data in
  let filtered_data := filter_category chosen_category filtered_data in
  filtered_data.

(** The row predicate the specification describes: the conjunction of the
    equality predicates of the attributes whose selected value is not
    ["All"]. *)
Definition selected {D} (chosen_region chosen_category : str) (row : Row D) : bool :=
  (str_eqb chosen_region All || str_eqb (Region row) chosen_region)
  && (str_eqb chosen_category All || str_eqb (Category row) chosen_category).

(** The other order of evaluation of the two blocks, Category first. *)
Definition filtered_data_category_first {D} (store_data : DataFrame D)
    (chosen_region chosen_category : str) : DataFrame D :=
  let filtered_data := copy store_data in
  let filtered_data := filter_category chosen_category filtered_data in
  let filtered_data := filter_region chosen_region filtered_data in
  filtered_data.

(** ** Quick summary (lines 72 to 84) *)

Definition sum_sales {D} (filtered_data : DataFrame D) : float :=
  Series_sum (column Sales filtered_data).

Definition sum_profit {D} (filtered_data : DataFrame D) : float :=
  Series_sum (column Profit filtered_data).

Definition avg_discount_perc {D} (filtered_data : DataFrame D) : float :=
  (Series_mean (column Discount filtered_data) * 100)%float.

Record SummaryResult := mkSummary {
  total_sales : float;
  total_profit : float;
  avg_discount_percent : float
}.

(** The three numbers of a frame, as lines 76 to 78 compute them. *)
Definition aggregates {D} (df : DataFrame D) : SummaryResult :=
  {| total_sales := sum_sales df;
     total_profit := sum_profit df;
     avg_discount_percent := avg_discount_perc df |}.

(** The summary is computed under [if not filtered_data.empty] only. *)
Definition summary {D} (filtered_data : DataFrame D) : option SummaryResult :=
  if negb (empty filtered_data) then Some (aggregates filtered_data) else None.

(** The engine: the subset and its summary for a table and a selection. *)
Definition apply {D} (table : DataFrame D) (chosen_region chosen_category : str)
    : DataFrame D * option SummaryResult :=
  let subset := filtered_data table chosen_region chosen_category in
  (subset, summary subset).

(** ** Frames as heap objects

    Python variables hold references.  Here a frame lives at a location of a
    heap and the pandas operations allocate their results. *)

Abbreviation loc := positive (only parsing).

Abbreviation heap D := (gmap loc (DataFrame D)) (only parsing).

(** A computation over the heap; [None] is a dangling reference. *)
Definition HeapOp (D A : Type) : Type := heap D -> option (A * heap D).

#[global] Instance HeapOp_ret {D} : MRet (HeapOp D) :=
  fun A (a : A) (h : heap D) => Some (a, h).

#[global] Instance HeapOp_bind {D} : MBind (HeapOp D) :=
  fun A B (k : A -> HeapOp D B) (m : HeapOp D A) (h : heap D) =>
    match m h with
    | Some (a, h') => k a h'
    | None => None
    end.

(** A new object: a location the heap does not use yet. *)
Definition new {D} (df : DataFrame D) : HeapOp D loc :=
  fun h => let l := fresh (dom h) in Some (l, <[l := df]> h).

Definition deref {D} (l : loc) : HeapOp D (DataFrame D) :=
  fun h => match h !! l with Some df => Some (df, h) | None => None end.

(** [l.copy()]: a new frame with the rows of [l]. *)
Definition ref_copy {D} (l : loc) : HeapOp D loc :=
  df ← deref l; new (copy df).

(** [l[name] == value]. *)
Definition ref_column_eq {D} (f : Row D -> str) (l : loc) (v : str) : HeapOp D (list bool) :=
  df ← deref l; mret (Series_eq (column f df) v).

(** [l[mask]]: a new frame. *)
Definition ref_getitem_mask {D} (l : loc) (mask : list bool) : HeapOp D loc :=
  df ← deref l; new (getitem_mask df mask).

(** Lines 52 to 60 over references: the variable [filtered_data] is rebound
    to each new frame. *)
Definition filtering_logic {D} (store_data : loc)
    (chosen_region chosen_category : str) : HeapOp D loc :=
  filtered_data ← ref_copy store_data;
  filtered_data ←
    (if str_neqb chosen_region All
     then mask ← ref_column_eq Region filtered_data chosen_region;
          ref_getitem_mask filtered_data mask
     else mret filtered_data);
  filtered_data ←
    (if str_neqb chosen_category All
     then mask ← ref_column_eq Category filtered_data chosen_category;
          ref_getitem_mask filtered_data mask
     else mret filtered_data);
  mret filtered_data.

(** [filtered_data.empty] and the three reductions (lines 72 to 78) read the
    frame and write nothing. *)
Definition ref_summary {D} (l : loc) : HeapOp D (option SummaryResult) :=
  df ← deref l; mret (summary df).

(** The engine over references: the frame of the subset and the summary. *)
Definition engine {D} (store_data : loc) (chosen_region chosen_category : str)
    : HeapOp D (loc * option SummaryResult) :=
  filtered_data ← filtering_logic store_data chosen_region chosen_category;
  stats ← ref_summary filtered_data;
  mret (filtered_data, stats).

(** ** The script as a whole: exceptions and rendered output *)

Inductive exn : Type :=
| FileNotFoundError
| ParserError
| ValueError.

Inductive result (A : Type) : Type :=
| Returned (a : A)
| Raised (e : exn).
Arguments Returned {A}.
Arguments Raised {A}.

(** What the script writes to the terminal or asks Streamlit to render.
    Numbers inside messages are kept as numbers: their formatting is not
    modelled. *)
Inductive Event : Type :=
| Print (line : str)
| StSetPageConfig
| StError (body : str)
| StInfo (body : str)
| StWarning (body : str)
| StTitle (body : str)
| StWrite (body : str)
| StHeader (body : str)
| StSubheader (body : str)
| StMarkdown (chosen_region chosen_category : str)
| StWriteFound (matching : nat)
| StSidebarHeader (body : str)
| StSidebarSelectbox (label : str) (options : list str)
| StDataframe (data : Table)
| StColumns (n : nat)
| StMetric (label : str) (value : float).

(** A run: the events so far, and how it ended. *)
Definition Script (A : Type) : Type := list Event * result A.

#[global] Instance Script_ret : MRet Script :=
  fun A (a : A) => ([], Returned a).

#[global] Instance Script_bind : MBind Script :=
  fun A B (k : A -> Script B) (m : Script A) =>
    match m with
    | (tr, Returned a) => let '(tr', r) := k a in (tr ++ tr', r)
    | (tr, Raised e) => (tr, Raised e)
    end.

Definition emit (ev : Event) : Script unit := ([ev], Returned tt).

Definition raise {A} (e : exn) : Script A := ([], Raised e).

Definition exn_eqb (e1 e2 : exn) : bool :=
  match e1, e2 with
  | FileNotFoundError, FileNotFoundError => true
  | ParserError, ParserError => true
  | ValueError, ValueError => true
  | _, _ => false
  end.

(** [try: body except e: handler]. *)
Definition try_except {A} (body : Script A) (e : exn) (handler : Script A) : Script A :=
  match body with
  | (tr, Raised e') =>
      if exn_eqb e' e then let '(tr', r) := handler in (tr ++ tr', r)
      else (tr, Raised e')
  | _ => body
  end.

(** The files the process can see: path to content. *)
Abbreviation FileSystem := (gmap str (list Byte.byte)) (only parsing).

(** [errors=] of [pd.to_datetime]. *)
Inductive errors_policy : Type := errors_raise | errors_coerce.

(** [data['Order Date'] = series]: the column replaced cell by cell. *)
Fixpoint setitem_Order_Date {D E} (df : DataFrame D) (s : list E) : DataFrame E :=
  match df, s with
  | row :: df', d :: s' =>
      mkRow (Region row) (Category row) d (Sales row) (Profit row) (Discount row)
      :: setitem_Order_Date df' s'
  | _, _ => []
  end.

(** The option chosen in a drop-down: the one at the position picked, the
    first one when nothing was picked. *)
Definition selectbox (label : str) (options : list str) (pick : nat) : Script str :=
  emit (StSidebarSelectbox label options);;
  mret (default (default All (head options)) (options !! pick)).

Section Loader.

(** The parts of pandas the loader calls, as parameters: the CSV reader run
    over the bytes of an existing file decoded as cp1252 ([None]: the content
    is not a table), and the parser of one value under the format
    ['%m/%d/%Y'] ([None]: the value does not parse). *)
Variable parse_csv : list Byte.byte -> option (DataFrame (option str)).
Variable strptime : str -> option Timestamp.

(** [pd.read_csv(file_path, encoding='cp1252')]. *)
Definition read_csv (fs : FileSystem) (file_path : str) : Script (DataFrame (option str)) :=
  match fs !! file_path with
  | None => raise FileNotFoundError
  | Some content =>
      match parse_csv content with
      | Some data => mret data
      | None => raise ParserError
      end
  end.

(** One cell under [pd.to_datetime(..., format='%m/%d/%Y', errors=...)]: an
    empty cell is [NaT]; a value that does not parse is [NaT] under
    ['coerce'] and an error under ['raise']. *)
Definition to_datetime_cell (errors : errors_policy) (cell : option str)
    : Script (option Timestamp) :=
  match cell with
  | None => mret None
  | Some value =>
      match strptime value with
      | Some date => mret (Some date)
      | None =>
          match errors with
          | errors_coerce => mret None
          | errors_raise => raise ValueError
          end
      end
  end.

Fixpoint to_datetime (s : list (option str)) (errors : errors_policy)
    : Script (list (option Timestamp)) :=
  match s with
  | [] => mret []
  | cell :: s' =>
      date ← to_datetime_cell errors cell;
      dates ← to_datetime s' errors;
      mret (date :: dates)
  end.

(** [get_data] (lines 15 to 26); the cache decorator is left out. *)
Definition get_data (fs : FileSystem) (file_path : str) : Script (option Table) :=
  emit (Print (py "Attempting to load data from: " ++ file_path));;
  try_except
    (data ← read_csv fs file_path;
     dates ← to_datetime (column Order_Date data) errors_coerce;
     let data := setitem_Order_Date data dates in
     emit (Print (py "Data loaded and date parsed."));;
     mret (Some data))
    FileNotFoundError
    (emit (StError (py "Oops! Couldn't find the file: " ++ file_path));;
     emit (StInfo (py "Make sure 'Superstore.csv' is in the same folder as the script."));;
     mret None).

(** The three metrics of lines 81 to 84. *)
Definition quick_summary (filtered_data : Table) : Script unit :=
  emit (StSubheader (py "Quick Summary (for filtered data):"));;
  let sum_sales := sum_sales filtered_data in
  let sum_profit := sum_profit filtered_data in
  let avg_discount_perc := avg_discount_perc filtered_data in
  emit (StColumns 3);;
  emit (StMetric (py "Total Sales") sum_sales);;
  emit (StMetric (py "Total Profit") sum_profit);;
  emit (StMetric (py "Avg. Discount") avg_discount_perc).

(** The branch under [if store_data is not None] (lines 38 to 84);
    [pick_region] and [pick_category] are what the user picked. *)
Definition dashboard (store_data : Table) (pick_region pick_category : nat) : Script unit :=
  emit (StSidebarHeader ([128269%N] ++ py " Filters"));;
  let region_options := region_options store_data in
  chosen_region ← selectbox (py "Pick a Region:") region_options pick_region;
  let category_options := category_options store_data in
  chosen_category ← selectbox (py "Pick a Category:") category_options pick_category;
  let filtered_data := copy store_data in
  (if str_neqb chosen_region All
   then emit (Print (py "Filtering by Region: " ++ chosen_region))
   else mret tt);;
  let filtered_data := filter_region chosen_region filtered_data in
  (if str_neqb chosen_category All
   then emit (Print (py "Filtering by Category: " ++ chosen_category))
   else mret tt);;
  let filtered_data := filter_category chosen_category filtered_data in
  emit (StHeader (py "Filtered Results"));;
  emit (StMarkdown chosen_region chosen_category);;
  emit (StWriteFound (List.length filtered_data));;
  emit (StDataframe filtered_data);;
  if negb (empty filtered_data) then quick_summary filtered_data else mret tt.

(** The script from top to bottom. *)
Definition main (fs : FileSystem) (pick_region pick_category : nat) : Script unit :=
  emit StSetPageConfig;;
  store_data ← get_data fs (py "Superstore.csv");
  emit (StTitle ([128202%N] ++ py " Superstore Explorer App"));;
  emit (StWrite (py "Use the filters in the sidebar to explore the sales data."));;
  match store_data with
  | Some store_data => dashboard store_data pick_region pick_category
  | None => emit (StWarning (py "Data loading failed, cannot display the dashboard content."))
  end.

End Loader.

(** * Definitions used by the statements and the proofs *)

(** The two rows of the specification's scenario; [0x1.999999999999ap-4] and
    [0x1.999999999999ap-3] are the float64 values of the literals 0.1 and
    0.2. *)
Definition scenario : Table :=
  [ mkRow (py "West") (py "Furniture") None 100%float 10%float 0x1.999999999999ap-4%float;
    mkRow (py "East") (py "Furniture") None 200%float 40%float 0x1.999999999999ap-3%float ].

(** Ten rows on which the grouping of the additions shows: Sales is [1e16]
    and nine times [1.0], Profit ten times 0.1, Discount nine times 0.2 and
    once 0.8 (as float64 values). *)
Definition ten_rows : Table :=
  mkRow (py "West") (py "Furniture") None 1e16%float 0x1.999999999999ap-4%float
    0x1.999999999999ap-3%float
  :: repeat (mkRow (py "West") (py "Furniture") None 1%float 0x1.999999999999ap-4%float
               0x1.999999999999ap-3%float) 8
  ++ [ mkRow (py "West") (py "Furniture") None 1%float 0x1.999999999999ap-4%float
         0x1.999999999999ap-1%float ].

(** A reference instance of the parser parameter, for values written in
    ASCII: a month of one or two digits from 1 to 12, a slash, a day of one
    or two digits (or a space and one digit) that exists in that month, a
    slash, a year of four digits, and nothing else.  The range of the
    timestamp type is not part of it. *)
Definition digit (c : N) : option Z :=
  if ((48 <=? c) && (c <=? 57))%N then Some (Z.of_N c - 48)%Z else None.

Fixpoint number_from (acc : Z) (s : str) : option Z :=
  match s with
  | [] => Some acc
  | c :: s' => d ← digit c; number_from (10 * acc + d)%Z s'
  end.

Fixpoint split_slash (s : str) : list str :=
  match s with
  | [] => [[]]
  | c :: s' =>
      if (c =? 47)%N then [] :: split_slash s'
      else match split_slash s' with
           | field :: fields => (c :: field) :: fields
           | [] => [[c]]
           end
  end.

Definition month_field (s : str) : option Z :=
  match s with
  | [_] | [_; _] =>
      n ← number_from 0 s;
      if ((1 <=? n) && (n <=? 12))%Z then Some n else None
  | _ => None
  end.

Definition day_field (s : str) : option Z :=
  match s with
  | [c1; c2] =>
      n ← number_from 0 (if (c1 =? 32)%N then [c2] else s);
      if ((1 <=? n) && (n <=? 31))%Z then Some n else None
  | [_] =>
      n ← number_from 0 s;
      if (1 <=? n)%Z then Some n else None
  | _ => None
  end.

Definition year_field (s : str) : option Z :=
  match s with
  | [_; _; _; _] => number_from 0 s
  | _ => None
  end.

Definition is_leap (year : Z) : bool :=
  ((year mod 4 =? 0) && (negb (year mod 100 =? 0) || (year mod 400 =? 0)))%Z.

Definition days_in_month (year month : Z) : Z :=
  match month with
  | 2 => if is_leap year then 29 else 28
  | 4 | 6 | 9 | 11 => 30
  | _ => 31
  end%Z.

Definition strptime_mdY (value : str) : option Timestamp :=
  match split_slash value with
  | [m; d; y] =>
      month ← month_field m;
      day ← day_field d;
      year ← year_field y;
      if ((1 <=? year) && (day <=? days_in_month year month))%Z
      then Some (mkTimestamp year month day)
      else None
  | _ => None
  end.

(** Streamlit calls that only the dashboard branch makes. *)
Definition dashboard_event (ev : Event) : bool :=
  match ev with
  | StSidebarHeader _ | StSidebarSelectbox _ _ | StHeader _ | StMarkdown _ _
  | StWriteFound _ | StDataframe _ | StSubheader _ | StColumns _ | StMetric _ _ => true
  | _ => false
  end.

(** The [Order Date] cell after conversion under ['coerce']. *)
Definition coerced (strptime : str -> option Timestamp) (cell : option str)
    : option Timestamp :=
  match cell with
  | Some value => strptime value
  | None => None
  end.

(** A file whose second row carries a date in another format. *)
Definition raw_scenario : DataFrame (option str) :=
  [ mkRow (py "West") (py "Furniture") (Some (py "11/08/2016"))
      100%float 10%float 0x1.999999999999ap-4%float;
    mkRow (py "East") (py "Furniture") (Some (py "2024-13-40"))
      200%float 40%float 0x1.999999999999ap-3%float ].

(** The option a drop-down returns for the position picked (line 44 and
    line 48), as a value. *)
Definition picked (options : list str) (pick : nat) : str :=
  default (default All (head options)) (options !! pick).

(** What the dashboard branch renders for the two chosen values: the events
    of lines 39 to 84 in order, written with the engine [apply]. *)
Definition dashboard_events (store_data : Table) (chosen_region chosen_category : str)
    : list Event :=
  [ StSidebarHeader ([128269%N] ++ py " Filters");
    StSidebarSelectbox (py "Pick a Region:") (region_options store_data);
    StSidebarSelectbox (py "Pick a Category:") (category_options store_data) ]
  ++ (if str_neqb chosen_region All
      then [Print (py "Filtering by Region: " ++ chosen_region)] else [])
  ++ (if str_neqb chosen_category All
      then [Print (py "Filtering by Category: " ++ chosen_category)] else [])
  ++ [ StHeader (py "Filtered Results");
       StMarkdown chosen_region chosen_category;
       StWriteFound (List.length (apply store_data chosen_region chosen_category).1);
       StDataframe (apply store_data chosen_region chosen_category).1 ]
  ++ match (apply store_data chosen_region chosen_category).2 with
     | Some stats =>
         [ StSubheader (py "Quick Summary (for filtered data):");
           StColumns 3;
           StMetric (py "Total Sales") (total_sales stats);
           StMetric (py "Total Profit") (total_profit stats);
           StMetric (py "Avg. Discount") (avg_discount_percent stats) ]
     | None => []
     end.

(** ** Sums of floats

    [sum_of l v]: the float [v] is a sum of exactly the terms of [l], each
    taken once, for some grouping of the additions; a grouping may start
    from [0.0] or [-0.0]. *)
Inductive sum_of : list float -> float -> Prop :=
| sum_of_zero : sum_of [] 0%float
| sum_of_neg_zero : sum_of [] PrimFloat.neg_zero
| sum_of_one (x : float) : sum_of [x] x
| sum_of_add (l1 l2 : list float) (v1 v2 : float) :
    sum_of l1 v1 -> sum_of l2 v2 -> sum_of (l1 ++ l2) (v1 + v2)%float
| sum_of_perm (l l' : list float) (v : float) :
    Permutation l l' -> sum_of l v -> sum_of l' v.

(** The terms each accumulator of [add_lanes] has taken in. *)
Fixpoint lane_ext (lanes : list (list float)) (chunk : list float) : list (list float) :=
  match lanes, chunk with
  | l :: lanes', y :: chunk' => (l ++ [y]) :: lane_ext lanes' chunk'
  | _, _ => lanes
  end.







(** ** Binary64 values

    The sums, the mean and the percentage are computed on binary64 floats.
    Their bounds are proved on the specification of the primitive
    operations ([SpecFloat]): a float that is not negative is measured by its
    value in units of [2^-1074], an integer, and rounding is described on
    mantissas that carry their round and sticky bits. *)

Local Open Scope Z_scope.

(** The number of binary digits of a mantissa. *)
Definition dig (m : Z) : Z := Zdigits2 m.

(** A mantissa with its round and sticky bits as one integer: four times the
    mantissa, plus 0 (exact), 1 (below the middle), 2 (the middle) or 3 (above
    the middle).  The code grows with the number it stands for. *)
Definition code (mrs : shr_record) : Z :=
  4 * shr_m mrs + (if shr_r mrs then 2 else 0) + (if shr_s mrs then 1 else 0).

(** The code of a mantissa with a location. *)
Definition code_of (m : Z) (l : location) : Z := code (shr_record_of_loc m l).

(** One shift to the right, on codes. *)
Definition half_code (t : Z) : Z :=
  2 * (t / 4) + (if t mod 4 =? 0 then 0 else 1).

(** [k] shifts to the right. *)
Definition shift_code (k : nat) (t : Z) : Z := Nat.iter k half_code t.

(** Rounding to nearest, ties to even, on codes. *)
Definition round_code (t : Z) : Z :=
  let m := t / 4 in
  let c := t mod 4 in
  if c <=? 1 then m
  else if c =? 2 then (if Z.even m then m else m + 1)
  else m + 1.

(** The exponent of the binary64 format for a number of magnitude [e]. *)
Definition fexp64 (e : Z) : Z := Z.max (e - 53) (-1074).

(** A rounded mantissa and its exponent as a float: zero, finite, or infinite
    when the exponent is beyond the format. *)
Definition pack (m e : Z) : spec_float :=
  match m with
  | Z0 => S754_zero false
  | Zpos p => if e <=? 971 then S754_finite false p e else S754_infinity false
  | Zneg _ => S754_nan
  end.

(** A mantissa that reached [2^53] after rounding moves to the next
    exponent. *)
Definition finish (m e : Z) : spec_float :=
  if m =? 2 ^ 53 then pack (2 ^ 52) (e + 1) else pack m e.

(** [2^1024], the least power of two beyond the format, in units of
    [2^-1074]. *)
Definition rank_top : Z := 2 ^ 2098.

(** The value of a float that is not negative, in units of [2^-1074], the
    least positive binary64 number; infinity counts as [rank_top].  Negative
    floats and NaN get [-1]. *)
Definition rank (x : spec_float) : Z :=
  match x with
  | S754_zero _ => 0
  | S754_finite false m e => Zpos m * 2 ^ (e + 1074)
  | S754_infinity false => rank_top
  | _ => -1
  end.

(** Zero, a positive finite float or plus infinity. *)
Definition nonneg (x : spec_float) : bool :=
  match x with
  | S754_zero _ | S754_finite false _ _ | S754_infinity false => true
  | _ => false
  end.

(** The number with code [t] at exponent [c], rounded to the format, in the
    units of [rank]. *)
Definition rounded (t c : Z) : Z :=
  let E := fexp64 (dig (t / 4) + c) in
  round_code (shift_code (Z.to_nat (E - c)) t) * 2 ^ (E + 1074).

(** Rounding a value given in units of [2^-1074]. *)
Definition RN (X : Z) : Z := rounded (4 * X) (-1074).

(** Zero or a positive finite float. *)
Definition finite_nonneg (x : spec_float) : bool :=
  match x with
  | S754_zero _ | S754_finite false _ _ => true
  | _ => false
  end.



Local Close Scope Z_scope.

(** * Properties *)

(** ** Strings *)

Lemma str_compare_eq (a b : str) : str_compare a b = Eq <-> a = b.
Proof.
  revert b; induction a as [|x a IH]; intros [|y b]; simpl; try (split; congruence).
  destruct (N.compare_spec x y) as [->|H|H].
  - rewrite IH. split; congruence.
  - split; [discriminate|]. intros [= -> _]. lia.
  - split; [discriminate|]. intros [= -> _]. lia.
Qed.

Lemma str_eqb_eq (a b : str) : str_eqb a b = true <-> a = b.
Proof.
  unfold str_eqb. rewrite <- str_compare_eq.
  destruct (str_compare a b); split; congruence.
Qed.

Lemma str_eqb_refl (a : str) : str_eqb a a = true.
Proof. now apply str_eqb_eq. Qed.

Lemma str_eqb_neq (a b : str) : str_eqb a b = false <-> a <> b.
Proof.
  rewrite <- str_eqb_eq. destruct (str_eqb a b); split; congruence.
Qed.

Lemma str_neqb_All : str_neqb All All = false.
Proof. reflexivity. Qed.

(** ** Masks and filters *)

Section FrameFacts.
Context {D : Type}.
Implicit Types (df T : DataFrame D) (p q : Row D -> bool) (r c : str).

Lemma getitem_mask_filter p df :
  getitem_mask df (List.map p df) = List.filter p df.
Proof.
  induction df as [|row df IH]; simpl; [reflexivity|].
  rewrite IH. reflexivity.
Qed.

Lemma filter_true df : List.filter (fun _ => true) df = df.
Proof. induction df as [|row df IH]; simpl; congruence. Qed.

Lemma filter_region_filter r df :
  filter_region r df =
  List.filter (fun row => str_eqb r All || str_eqb (Region row) r) df.
Proof.
  unfold filter_region, str_neqb, Series_eq, column.
  rewrite List.map_map, getitem_mask_filter.
  destruct (str_eqb r All); simpl; [|reflexivity].
  symmetry. apply filter_true.
Qed.

Lemma filter_category_filter c df :
  filter_category c df =
  List.filter (fun row => str_eqb c All || str_eqb (Category row) c) df.
Proof.
  unfold filter_category, str_neqb, Series_eq, column.
  rewrite List.map_map, getitem_mask_filter.
  destruct (str_eqb c All); simpl; [|reflexivity].
  symmetry. apply filter_true.
Qed.

Lemma filter_filter_andb p q df :
  List.filter q (List.filter p df) = List.filter (fun row => p row && q row) df.
Proof.
  induction df as [|row df IH]; simpl; [reflexivity|].
  destruct (p row); simpl; [destruct (q row)|]; congruence.
Qed.

Lemma filtered_data_filter df r c :
  filtered_data df r c = List.filter (selected r c) df.
Proof.
  unfold filtered_data, copy.
  rewrite filter_category_filter, filter_region_filter, filter_filter_andb.
  reflexivity.
Qed.

Lemma filter_sublist p df : sublist (List.filter p df) df.
Proof.
  induction df as [|row df IH]; simpl; [constructor|].
  destruct (p row); now constructor.
Qed.

Lemma filter_idem p df : List.filter p (List.filter p df) = List.filter p df.
Proof.
  rewrite filter_filter_andb. apply List.filter_ext.
  intros row. now destruct (p row).
Qed.

Lemma selected_spec r c (row : Row D) :
  selected r c row = true <->
  (r <> All -> Region row = r) /\ (c <> All -> Category row = c).
Proof.
  unfold selected.
  rewrite andb_true_iff, !orb_true_iff, !str_eqb_eq.
  split; intros [H1 H2]; split.
  - intros Hr. destruct H1; congruence.
  - intros Hc. destruct H2; congruence.
  - destruct (str_eqb r All) eqn:E.
    + left. now apply str_eqb_eq.
    + right. apply H1. now apply str_eqb_neq.
  - destruct (str_eqb c All) eqn:E.
    + left. now apply str_eqb_eq.
    + right. apply H2. now apply str_eqb_neq.
Qed.

(** C1. The subset returned by the engine is the rows of the table that
    satisfy every equality predicate whose selected value is not ["All"]
    (exact equality of strings), each as often and in the order the table has
    them: the subset is the table filtered by the conjunction, its members
    are characterised row by row, and it is a sub-sequence of the table. *)
Theorem C1_subset_exact_rows_in_order T r c :
  (apply T r c).1 = List.filter (selected r c) T
  /\ (forall row, In row (apply T r c).1 <->
        In row T /\ (r <> All -> Region row = r) /\ (c <> All -> Category row = c))
  /\ sublist (apply T r c).1 T.
Proof.
  unfold apply; simpl. rewrite filtered_data_filter.
  split; [reflexivity|split].
  - intros row. rewrite List.filter_In, selected_spec. reflexivity.
  - apply filter_sublist.
Qed.

(** C3. Region first then Category (the order of the script) and Category
    first then Region give the same subset. *)
Theorem C3_filter_order_independent T r c :
  filter_category c (filter_region r T) = filter_region r (filter_category c T)
  /\ filtered_data T r c = filtered_data_category_first T r c.
Proof.
  assert (H : filter_category c (filter_region r T)
              = filter_region r (filter_category c T)).
  { rewrite !filter_category_filter, !filter_region_filter, !filter_filter_andb.
    apply List.filter_ext. intros row. apply andb_comm. }
  split; [exact H|].
  unfold filtered_data, filtered_data_category_first, copy. exact H.
Qed.

(** C5. Applying a selection to the subset it produced returns that subset. *)
Theorem C5_filter_idempotent T r c :
  (apply (apply T r c).1 r c).1 = (apply T r c).1.
Proof.
  unfold apply; simpl. rewrite !filtered_data_filter. apply filter_idem.
Qed.

End FrameFacts.

(** Equality of strings is exact: no row of the scenario has the region
    ["west"], and ["Furn"] does not select ["Furniture"]. *)
Example filter_is_case_sensitive : apply scenario (py "west") All = ([], None).
Proof. reflexivity. Qed.

Example filter_is_not_by_substring : apply scenario All (py "Furn") = ([], None).
Proof. reflexivity. Qed.

(** ** Summary *)

Lemma summary_None_iff {D} (df : DataFrame D) : summary df = None <-> df = [].
Proof. destruct df; unfold summary; simpl; split; congruence. Qed.

(** C4. With ["All"] selected for both attributes the subset is the whole
    table, and the summary is the one of the whole table: its aggregates when
    the table has a row. *)
Theorem C4_all_all_identity {D} (T : DataFrame D) :
  (apply T All All).1 = T
  /\ (apply T All All).2 = summary T
  /\ (T <> [] -> (apply T All All).2 = Some (aggregates T)).
Proof.
  assert (H : filtered_data T All All = T) by reflexivity.
  unfold apply; simpl. rewrite H.
  split; [reflexivity|split; [reflexivity|]].
  intros Hne. destruct T; [congruence|reflexivity].
Qed.

Lemma C4_all_all_identity_witness :
  scenario <> []
  /\ (apply scenario All All).2
     = Some {| total_sales := 300%float; total_profit := 50%float;
               avg_discount_percent := 0x1.e000000000001p+3%float |}.
Proof.
  assert (Hne : scenario <> []) by discriminate.
  split; [exact Hne|].
  rewrite (proj2 (proj2 (C4_all_all_identity scenario)) Hne).
  vm_compute. reflexivity.
Defined.

(** ** Frames on the heap *)

Section HeapFacts.
Context {D : Type}.
Implicit Types (h : heap D) (l : loc) (df : DataFrame D).

Lemma new_spec df h :
  exists l, new df h = Some (l, <[l := df]> h) /\ h !! l = None.
Proof.
  exists (fresh (dom h)). split; [reflexivity|].
  apply (not_elem_of_dom (D := gset positive)). apply is_fresh.
Qed.

(** Every pandas operation of the filtering logic leaves the frames that
    exist in place and puts its result at a new location. *)
Lemma ref_copy_spec l df h :
  h !! l = Some df ->
  exists l', ref_copy l h = Some (l', <[l' := df]> h) /\ h !! l' = None.
Proof.
  intros Hl. unfold ref_copy, mbind, HeapOp_bind, deref. rewrite Hl.
  apply new_spec.
Qed.

Lemma ref_getitem_mask_spec l df mask h :
  h !! l = Some df ->
  exists l', ref_getitem_mask l mask h = Some (l', <[l' := getitem_mask df mask]> h)
             /\ h !! l' = None.
Proof.
  intros Hl. unfold ref_getitem_mask, mbind, HeapOp_bind, deref. rewrite Hl.
  apply new_spec.
Qed.

Lemma ref_column_eq_spec (f : Row D -> str) l df v h :
  h !! l = Some df ->
  ref_column_eq f l v h = Some (Series_eq (column f df) v, h).
Proof.
  intros Hl. unfold ref_column_eq, mbind, HeapOp_bind, deref. rewrite Hl.
  reflexivity.
Qed.

(** One guarded block: the variable ends up on a frame with the filtered
    rows, and no frame that existed before has changed. *)
Lemma guarded_block_spec (f : Row D -> str) (guard : bool) v l df h :
  h !! l = Some df ->
  exists l' h',
    (if guard
     then mask ← ref_column_eq f l v; ref_getitem_mask l mask
     else mret l) h = Some (l', h')
    /\ h ⊆ h'
    /\ h' !! l'
       = Some (if guard then getitem_mask df (Series_eq (column f df) v) else df)
    /\ (l' = l \/ h !! l' = None).
Proof.
  intros Hl. destruct guard.
  - destruct (ref_getitem_mask_spec l df (Series_eq (column f df) v) h Hl)
      as (l' & Hrun & Hfresh).
    exists l', (<[l' := getitem_mask df (Series_eq (column f df) v)]> h).
    split; [|split; [|split]].
    + unfold mbind, HeapOp_bind at 1. rewrite (ref_column_eq_spec f l df v h Hl).
      exact Hrun.
    + now apply insert_subseteq.
    + apply lookup_insert_eq.
    + now right.
  - exists l, h. split; [reflexivity|]. split; [reflexivity|]. split; [exact Hl|now left].
Qed.

Lemma filtering_logic_spec h (store_data : loc) (T : DataFrame D)
    (chosen_region chosen_category : str) :
  h !! store_data = Some T ->
  exists (result : loc) (h' : heap D),
    filtering_logic store_data chosen_region chosen_category h = Some (result, h')
    /\ h ⊆ h'
    /\ result <> store_data
    /\ h' !! result = Some (filtered_data T chosen_region chosen_category).
Proof.
  intros Hstore.
  destruct (ref_copy_spec store_data T h Hstore) as (l1 & Hcopy & Hfresh1).
  set (h1 := <[l1 := T]> h) in *.
  assert (Hl1 : h1 !! l1 = Some T) by apply lookup_insert_eq.
  assert (Hsub1 : h ⊆ h1) by now apply insert_subseteq.
  destruct (guarded_block_spec Region (str_neqb chosen_region All) chosen_region
              l1 T h1 Hl1) as (l2 & h2 & Hrun2 & Hsub2 & Hl2 & Hnew2).
  destruct (guarded_block_spec Category (str_neqb chosen_category All) chosen_category
              l2 _ h2 Hl2) as (l3 & h3 & Hrun3 & Hsub3 & Hl3 & Hnew3).
  assert (Hsub : h ⊆ h3) by (etrans; [exact Hsub1|etrans; eassumption]).
  exists l3, h3. split; [|split; [|split]].
  - unfold filtering_logic. unfold mbind at 1, HeapOp_bind at 1. rewrite Hcopy.
    unfold mbind at 1, HeapOp_bind at 1. rewrite Hrun2.
    unfold mbind at 1, HeapOp_bind at 1. rewrite Hrun3. reflexivity.
  - exact Hsub.
  - intros ->.
    assert (Hin1 : h1 !! store_data = Some T) by (eapply lookup_weaken; eassumption).
    assert (Hin2 : h2 !! store_data = Some T) by (eapply lookup_weaken; eassumption).
    destruct Hnew3 as [->|Hnone]; [|congruence].
    destruct Hnew2 as [->|Hnone]; congruence.
  - rewrite Hl3. reflexivity.
Qed.

(** C6. Running the engine on a heap where [store_data] refers to the table
    [T] ends with [store_data] still referring to [T], row for row, and with
    every other frame of the heap as it was.  The subset is another object
    than [store_data]; it holds the rows, and comes with the summary, of
    [apply T]. *)
Theorem C6_original_table_not_mutated h (store_data : loc) (T : DataFrame D)
    (chosen_region chosen_category : str) :
  h !! store_data = Some T ->
  exists (result : loc) (stats : option SummaryResult) (h' : heap D),
    engine store_data chosen_region chosen_category h
    = Some ((result, stats), h')
    /\ h' !! store_data = Some T
    /\ (forall l df, h !! l = Some df -> h' !! l = Some df)
    /\ result <> store_data
    /\ h' !! result = Some (apply T chosen_region chosen_category).1
    /\ stats = (apply T chosen_region chosen_category).2.
Proof.
  intros Hstore.
  destruct (filtering_logic_spec h store_data T chosen_region chosen_category Hstore)
    as (result & h' & Hrun & Hsub & Hne & Hres).
  exists result, (summary (filtered_data T chosen_region chosen_category)), h'.
  split; [|split; [|split; [|split; [|split]]]].
  - unfold engine. unfold mbind at 1, HeapOp_bind at 1. rewrite Hrun.
    unfold ref_summary, deref, mbind, HeapOp_bind. rewrite Hres. reflexivity.
  - eapply lookup_weaken; eassumption.
  - intros l df Hl. eapply lookup_weaken; eassumption.
  - exact Hne.
  - exact Hres.
  - reflexivity.
Qed.

End HeapFacts.

Lemma C6_original_table_not_mutated_witness :
  exists (result : loc) (stats : option SummaryResult)
         (h' : heap (option Timestamp)),
    engine 1%positive (py "West") All {[1%positive := scenario]}
    = Some ((result, stats), h')
    /\ h' !! 1%positive = Some scenario
    /\ (forall l df, ({[1%positive := scenario]} : heap _) !! l = Some df ->
                     h' !! l = Some df)
    /\ result <> 1%positive
    /\ h' !! result = Some (apply scenario (py "West") All).1
    /\ stats = (apply scenario (py "West") All).2.
Proof.
  apply (C6_original_table_not_mutated {[1%positive := scenario]} 1%positive
           scenario (py "West") All).
  reflexivity.
Defined.

(** ** Loading *)

Example strptime_mdY_date :
  strptime_mdY (py "11/08/2016") = Some (mkTimestamp 2016 11 8).
Proof. reflexivity. Qed.

Example strptime_mdY_iso : strptime_mdY (py "2024-13-40") = None.
Proof. reflexivity. Qed.

Example strptime_mdY_no_such_day : strptime_mdY (py "02/30/2016") = None.
Proof. reflexivity. Qed.

Section LoaderFacts.
Variable parse_csv : list Byte.byte -> option (DataFrame (option str)).
Variable strptime : str -> option Timestamp.
Implicit Types (fs : FileSystem) (file_path : str).

Lemma to_datetime_coerce (s : list (option str)) :
  to_datetime strptime s errors_coerce
  = ([], Returned (List.map (coerced strptime) s)).
Proof.
  induction s as [|cell s IH]; [reflexivity|].
  cbn [to_datetime]. rewrite IH.
  destruct cell as [value|]; cbn; [destruct (strptime value)|]; reflexivity.
Qed.

Lemma setitem_Order_Date_map {E} (g : option str -> E) (raw : DataFrame (option str)) :
  setitem_Order_Date raw (List.map g (column Order_Date raw))
  = List.map (fun row => mkRow (Region row) (Category row) (g (Order_Date row))
                           (Sales row) (Profit row) (Discount row)) raw.
Proof.
  unfold column.
  induction raw as [|row raw IH]; simpl; [reflexivity|].
  rewrite IH. reflexivity.
Qed.

(** The three ways [get_data] ends. *)
Lemma get_data_cases fs file_path :
  get_data parse_csv strptime fs file_path
  = match fs !! file_path with
    | None =>
        ([Print (py "Attempting to load data from: " ++ file_path);
          StError (py "Oops! Couldn't find the file: " ++ file_path);
          StInfo (py "Make sure 'Superstore.csv' is in the same folder as the script.")],
         Returned None)
    | Some content =>
        match parse_csv content with
        | Some raw =>
            ([Print (py "Attempting to load data from: " ++ file_path);
              Print (py "Data loaded and date parsed.")],
             Returned (Some (setitem_Order_Date raw
                               (List.map (coerced strptime) (column Order_Date raw)))))
        | None =>
            ([Print (py "Attempting to load data from: " ++ file_path)],
             Raised ParserError)
        end
    end.
Proof.
  unfold get_data, read_csv.
  destruct (fs !! file_path) as [content|]; [|reflexivity].
  destruct (parse_csv content) as [raw|]; [|reflexivity].
  cbn [mbind Script_bind mret Script_ret]. rewrite to_datetime_coerce.
  reflexivity.
Qed.

Lemma get_data_events fs file_path :
  Forall (fun ev => dashboard_event ev = false)
    (get_data parse_csv strptime fs file_path).1.
Proof.
  rewrite get_data_cases.
  destruct (fs !! file_path) as [content|]; [destruct (parse_csv content)|];
    simpl; repeat constructor.
Qed.

(** C7. When the file does not exist [get_data] returns [None] (the script's
    value for a failed load): it raises nothing, reads and parses nothing,
    and reports the path.  The script then renders the title, the
    introduction and the warning and nothing of the dashboard; in any run,
    something of the dashboard is rendered only if [get_data] returned a
    table. *)
Theorem C7_missing_file_halts_before_engine fs (pick_region pick_category : nat) :
  (forall file_path, fs !! file_path = None ->
     get_data parse_csv strptime fs file_path
     = ([Print (py "Attempting to load data from: " ++ file_path);
         StError (py "Oops! Couldn't find the file: " ++ file_path);
         StInfo (py "Make sure 'Superstore.csv' is in the same folder as the script.")],
        Returned None))
  /\ (fs !! py "Superstore.csv" = None ->
      main parse_csv strptime fs pick_region pick_category
      = ([StSetPageConfig;
          Print (py "Attempting to load data from: Superstore.csv");
          StError (py "Oops! Couldn't find the file: Superstore.csv");
          StInfo (py "Make sure 'Superstore.csv' is in the same folder as the script.");
          StTitle ([128202%N] ++ py " Superstore Explorer App");
          StWrite (py "Use the filters in the sidebar to explore the sales data.");
          StWarning (py "Data loading failed, cannot display the dashboard content.")],
         Returned tt))
  /\ (forall ev,
        In ev (main parse_csv strptime fs pick_region pick_category).1 ->
        dashboard_event ev = true ->
        exists store_data,
          (get_data parse_csv strptime fs (py "Superstore.csv")).2
          = Returned (Some store_data)).
Proof.
  split; [|split].
  - intros file_path Hnone. rewrite get_data_cases, Hnone. reflexivity.
  - intros Hnone. unfold main. rewrite get_data_cases, Hnone. reflexivity.
  - intros ev Hin Hev. unfold main in Hin.
    pose proof (get_data_events fs (py "Superstore.csv")) as Hquiet.
    destruct (get_data parse_csv strptime fs (py "Superstore.csv"))
      as [tr [[store_data|]|e]] eqn:Hload.
    + exists store_data. reflexivity.
    + exfalso. cbn in Hin. cbn in Hquiet.
      rewrite List.Forall_forall in Hquiet.
      destruct Hin as [<-|Hin]; [discriminate|].
      apply List.in_app_or in Hin. destruct Hin as [Hin|Hin].
      * specialize (Hquiet ev Hin). congruence.
      * simpl in Hin. destruct Hin as [<-|[<-|[<-|[]]]]; discriminate.
    + exfalso. cbn in Hin. cbn in Hquiet.
      rewrite List.Forall_forall in Hquiet.
      destruct Hin as [<-|Hin]; [discriminate|].
      specialize (Hquiet ev Hin). congruence.
Qed.

(** C8. When the file exists and holds a table, [get_data] raises nothing
    and returns every row of it: each row keeps its other cells, and its
    [Order Date] is the date the value parses to under the format, and [NaT]
    when the value does not parse (or the cell is empty). *)
Theorem C8_unparsable_dates_become_NaT fs file_path
    (content : list Byte.byte) (raw : DataFrame (option str)) :
  fs !! file_path = Some content ->
  parse_csv content = Some raw ->
  exists data : Table,
    get_data parse_csv strptime fs file_path
    = ([Print (py "Attempting to load data from: " ++ file_path);
        Print (py "Data loaded and date parsed.")],
       Returned (Some data))
    /\ List.length data = List.length raw
    /\ forall (i : nat) (row : Row (option str)),
         nth_error raw i = Some row ->
         nth_error data i
         = Some (mkRow (Region row) (Category row)
                   match Order_Date row with
                   | Some value =>
                       match strptime value with
                       | Some date => Some date
                       | None => None
                       end
                   | None => None
                   end
                   (Sales row) (Profit row) (Discount row)).
Proof.
  intros Hfs Hparse. eexists. split; [|split].
  - rewrite get_data_cases, Hfs, Hparse. reflexivity.
  - rewrite setitem_Order_Date_map. apply List.length_map.
  - intros i row Hrow. rewrite setitem_Order_Date_map.
    rewrite List.nth_error_map, Hrow. simpl. f_equal. f_equal.
    unfold coerced. destruct (Order_Date row) as [value|]; [|reflexivity].
    destruct (strptime value); reflexivity.
Qed.

End LoaderFacts.

Lemma C8_unparsable_dates_become_NaT_witness :
  exists data : Table,
    get_data (fun _ => Some raw_scenario) strptime_mdY
      {[ py "Superstore.csv" := [] ]} (py "Superstore.csv")
    = ([Print (py "Attempting to load data from: " ++ py "Superstore.csv");
        Print (py "Data loaded and date parsed.")],
       Returned (Some data))
    /\ List.length data = List.length raw_scenario
    /\ forall (i : nat) (row : Row (option str)),
         nth_error raw_scenario i = Some row ->
         nth_error data i
         = Some (mkRow (Region row) (Category row)
                   match Order_Date row with
                   | Some value =>
                       match strptime_mdY value with
                       | Some date => Some date
                       | None => None
                       end
                   | None => None
                   end
                   (Sales row) (Profit row) (Discount row)).
Proof.
  apply (C8_unparsable_dates_become_NaT (fun _ => Some raw_scenario) strptime_mdY
           {[ py "Superstore.csv" := [] ]} (py "Superstore.csv") [] raw_scenario).
  - reflexivity.
  - reflexivity.
Defined.

(** The run behind the witness: the second row loads with [NaT]. *)
Example get_data_bad_date :
  (get_data (fun _ => Some raw_scenario) strptime_mdY
     {[ py "Superstore.csv" := [] ]} (py "Superstore.csv")).2
  = Returned (Some
      [ mkRow (py "West") (py "Furniture") (Some (mkTimestamp 2016 11 8))
          100%float 10%float 0x1.999999999999ap-4%float;
        mkRow (py "East") (py "Furniture") None
          200%float 40%float 0x1.999999999999ap-3%float ]).
Proof. rewrite get_data_cases. reflexivity. Qed.

(** Under ['raise'] the same column stops the conversion. *)
Example to_datetime_raise_bad_date :
  to_datetime strptime_mdY [Some (py "11/08/2016"); Some (py "2024-13-40")] errors_raise
  = ([], Raised ValueError).
Proof. reflexivity. Qed.

Lemma C7_missing_file_halts_before_engine_witness :
  (∅ : FileSystem) !! py "Superstore.csv" = None
  /\ main (fun _ => None) strptime_mdY ∅ 0 0
     = ([StSetPageConfig;
         Print (py "Attempting to load data from: Superstore.csv");
         StError (py "Oops! Couldn't find the file: Superstore.csv");
         StInfo (py "Make sure 'Superstore.csv' is in the same folder as the script.");
         StTitle ([128202%N] ++ py " Superstore Explorer App");
         StWrite (py "Use the filters in the sidebar to explore the sales data.");
         StWarning (py "Data loading failed, cannot display the dashboard content.")],
        Returned tt).
Proof.
  assert (Hnone : (∅ : FileSystem) !! py "Superstore.csv" = None) by reflexivity.
  split; [exact Hnone|].
  exact (proj1 (proj2 (C7_missing_file_halts_before_engine
                         (fun _ => None) strptime_mdY ∅ 0 0)) Hnone).
Defined.

(** ** Sidebar options *)

Lemma str_compare_lt_trans (a b c : str) :
  str_compare a b = Lt -> str_compare b c = Lt -> str_compare a c = Lt.
Proof.
  revert b c; induction a as [|x a IH]; intros [|y b] [|z c]; simpl;
    try congruence.
  destruct (N.compare_spec x y) as [->|Hxy|Hxy]; try discriminate.
  - destruct (N.compare_spec y z) as [->|Hyz|Hyz]; try discriminate.
    + apply IH.
    + reflexivity.
  - intros _.
    destruct (N.compare_spec y z) as [->|Hyz|Hyz]; try discriminate.
    + intros _. now rewrite (proj2 (N.compare_lt_iff x z) Hxy).
    + intros _. rewrite (proj2 (N.compare_lt_iff x z)); [reflexivity|lia].
Qed.

Lemma str_leb_iff (a b : str) :
  str_leb a b = true <-> a = b \/ str_ltb a b = true.
Proof.
  unfold str_leb, str_ltb. rewrite <- str_compare_eq.
  destruct (str_compare a b); split; intros H; auto; try discriminate.
  destruct H; discriminate.
Qed.

Lemma str_ltb_trans (a b c : str) :
  str_ltb a b = true -> str_ltb b c = true -> str_ltb a c = true.
Proof.
  unfold str_ltb. intros Hab Hbc.
  rewrite (str_compare_lt_trans a b c); [reflexivity| |].
  - destruct (str_compare a b); congruence.
  - destruct (str_compare b c); congruence.
Qed.

Lemma str_ltb_irrefl (a : str) : str_ltb a a = false.
Proof.
  unfold str_ltb. now rewrite (proj2 (str_compare_eq a a) eq_refl).
Qed.

Lemma str_leb_trans : Transitive (fun a b => is_true (StrOrder.leb a b)).
Proof.
  intros a b c. unfold StrOrder.leb, is_true. rewrite !str_leb_iff.
  intros [->|Hab] [->|Hbc]; auto.
  right. eapply str_ltb_trans; eassumption.
Qed.

Lemma existsb_str_eqb (x : str) (seen : list str) :
  existsb (str_eqb x) seen = true <-> In x seen.
Proof.
  rewrite existsb_exists. split.
  - intros (y & Hin & Heq). apply str_eqb_eq in Heq. now subst.
  - intros Hin. exists x. split; [assumption|apply str_eqb_refl].
Qed.

Lemma unique_from_In (seen s : list str) (v : str) :
  In v (unique_from seen s) <-> In v s /\ ~ In v seen.
Proof.
  revert seen; induction s as [|x s IH]; intros seen; simpl; [tauto|].
  destruct (existsb (str_eqb x) seen) eqn:E.
  - apply existsb_str_eqb in E. rewrite IH. split.
    + tauto.
    + intros [[->|Hin] Hseen]; tauto.
  - assert (Hx : ~ In x seen).
    { intros Hin. apply existsb_str_eqb in Hin. congruence. }
    simpl. rewrite IH. simpl. split.
    + intros [->|[Hin Hseen]]; [tauto|]. split; [tauto|]. tauto.
    + intros [[->|Hin] Hseen]; [tauto|].
      destruct (decide (x = v)) as [->|Hne]; [tauto|]. right. tauto.
Qed.

Lemma unique_from_NoDup (seen s : list str) : List.NoDup (unique_from seen s).
Proof.
  revert seen; induction s as [|x s IH]; intros seen; simpl; [constructor|].
  destruct (existsb (str_eqb x) seen); [apply IH|].
  constructor; [|apply IH].
  rewrite unique_from_In. simpl. tauto.
Qed.

Lemma strictly_sorted (l : list str) :
  StronglySorted (fun a b => is_true (StrOrder.leb a b)) l -> List.NoDup l ->
  StronglySorted (fun a b => str_ltb a b = true) l.
Proof.
  induction 1 as [|x l Hsorted IH Hall]; intros Hnodup; constructor.
  - apply IH. now inversion Hnodup.
  - inversion Hnodup as [|? ? Hnotin _]; subst.
    rewrite List.Forall_forall in *. intros y Hy.
    specialize (Hall y Hy). unfold StrOrder.leb, is_true in Hall.
    apply str_leb_iff in Hall. destruct Hall as [->|Hlt]; [contradiction|assumption].
Qed.

(** C10. For a table and a column of strings, the values offered are the
    values of the column (each one, and no other: ["All"] is among them only
    if the column holds it), in strictly ascending order of code points, so
    without duplicates however often a value occurs in the column; the
    drop-down lists put ["All"] in front of them. *)
Theorem C10_distinct_values_sorted_without_duplicates {D}
    (f : Row D -> str) (T : DataFrame D) :
  StronglySorted (fun a b => str_ltb a b = true) (distinctValues f T)
  /\ List.NoDup (distinctValues f T)
  /\ (forall v, In v (distinctValues f T) <-> In v (column f T))
  /\ (~ In All (column f T) -> ~ In All (distinctValues f T))
  /\ region_options T = All :: distinctValues Region T
  /\ category_options T = All :: distinctValues Category T.
Proof.
  unfold distinctValues, sorted, Series_unique.
  set (s := column f T).
  pose proof (StrSort.Permuted_sort (unique_from [] s)) as Hperm.
  assert (Hnodup : List.NoDup (StrSort.sort (unique_from [] s))).
  { eapply Permutation.Permutation_NoDup; [exact Hperm|apply unique_from_NoDup]. }
  assert (Hin : forall v, In v (StrSort.sort (unique_from [] s)) <-> In v s).
  { intros v. split.
    - intros Hv. apply Permutation.Permutation_sym in Hperm.
      apply (Permutation.Permutation_in _ Hperm) in Hv.
      apply unique_from_In in Hv. tauto.
    - intros Hv. apply (Permutation.Permutation_in _ Hperm).
      apply unique_from_In. simpl. tauto. }
  split; [|split; [exact Hnodup|split; [exact Hin|split]]].
  - apply strictly_sorted; [|exact Hnodup].
    apply StrSort.StronglySorted_sort. exact str_leb_trans.
  - intros Hnot Hall. apply Hnot. now apply Hin.
  - split; reflexivity.
Qed.

(** Repeated values and mixed case: upper case sorts before lower case. *)
Example distinctValues_repeated :
  distinctValues Region
    [ mkRow (py "West") (py "a") tt 0%float 0%float 0%float;
      mkRow (py "east") (py "b") tt 0%float 0%float 0%float;
      mkRow (py "West") (py "a") tt 0%float 0%float 0%float;
      mkRow (py "East") (py "a") tt 0%float 0%float 0%float;
      mkRow (py "east") (py "b") tt 0%float 0%float 0%float ]
  = [py "East"; py "West"; py "east"].
Proof. reflexivity. Qed.

Local Open Scope Z_scope.

(** ** Binary64 arithmetic: rounding is monotone *)

Lemma digits2_pos_bounds (p : positive) :
  2 ^ (Zpos (digits2_pos p) - 1) <= Zpos p < 2 ^ Zpos (digits2_pos p).
Proof.
  induction p as [p IH|p IH|]; simpl digits2_pos.
  - rewrite Pos2Z.inj_succ.
    replace (Z.succ (Zpos (digits2_pos p)) - 1) with (Z.succ (Zpos (digits2_pos p) - 1)) by lia.
    rewrite !Z.pow_succ_r by lia. lia.
  - rewrite Pos2Z.inj_succ.
    replace (Z.succ (Zpos (digits2_pos p)) - 1) with (Z.succ (Zpos (digits2_pos p) - 1)) by lia.
    rewrite !Z.pow_succ_r by lia. lia.
  - simpl. lia.
Qed.

Lemma dig_nonneg (m : Z) : 0 <= dig m.
Proof. destruct m; simpl; lia. Qed.

Lemma dig_bounds (m : Z) : 0 < m -> 2 ^ (dig m - 1) <= m < 2 ^ dig m.
Proof. destruct m as [|p|p]; try lia. intros _. apply digits2_pos_bounds. Qed.

Lemma dig_pos (m : Z) : 0 < m -> 0 < dig m.
Proof. destruct m; simpl; lia. Qed.

Lemma dig_lt_pow (m d : Z) : 0 <= m -> 0 <= d -> m < 2 ^ d -> dig m <= d.
Proof.
  intros Hm Hd Hlt. destruct (Z.eq_dec m 0) as [->|Hne]; [simpl; lia|].
  destruct (Z_le_gt_dec (dig m) d) as [|Hgt]; [assumption|exfalso].
  pose proof (dig_bounds m ltac:(lia)) as [Hlo _].
  assert (2 ^ d <= 2 ^ (dig m - 1)) by (apply Z.pow_le_mono_r; lia).
  lia.
Qed.

Lemma dig_ge_pow (m d : Z) : 0 <= d -> 2 ^ d <= m -> d + 1 <= dig m.
Proof.
  intros Hd Hle.
  assert (0 < m) by (pose proof (Z.pow_pos_nonneg 2 d); lia).
  destruct (Z_le_gt_dec (d + 1) (dig m)) as [|Hgt]; [assumption|exfalso].
  pose proof (dig_bounds m ltac:(lia)) as [_ Hhi].
  assert (2 ^ dig m <= 2 ^ d) by (apply Z.pow_le_mono_r; lia).
  lia.
Qed.

Lemma dig_mono (m1 m2 : Z) : 0 <= m1 <= m2 -> dig m1 <= dig m2.
Proof.
  intros [H1 H2]. destruct (Z.eq_dec m2 0) as [->|Hne].
  - replace m1 with 0 by lia. lia.
  - apply dig_lt_pow; [lia|apply dig_nonneg|].
    pose proof (dig_bounds m2 ltac:(lia)). lia.
Qed.

Lemma dig_shift (m k : Z) : 0 < m -> 0 <= k -> dig (m * 2 ^ k) = dig m + k.
Proof.
  intros Hm Hk. pose proof (dig_bounds m Hm) as [Hlo Hhi].
  pose proof (dig_pos m Hm) as Hd.
  assert (Hp : 0 < 2 ^ k) by (apply Z.pow_pos_nonneg; lia).
  apply Z.le_antisymm.
  - apply dig_lt_pow; [nia|lia|].
    rewrite Z.pow_add_r by lia. nia.
  - replace (dig m + k) with ((dig m - 1 + k) + 1) by lia.
    apply dig_ge_pow; [lia|].
    rewrite Z.pow_add_r by lia. nia.
Qed.

Lemma dig_div (m k : Z) : 0 <= m -> 0 <= k -> dig (m / 2 ^ k) = Z.max 0 (dig m - k).
Proof.
  intros Hm Hk.
  assert (Hp : 0 < 2 ^ k) by (apply Z.pow_pos_nonneg; lia).
  destruct (Z.eq_dec m 0) as [->|Hne]; [rewrite Z.div_0_l by lia; simpl; lia|].
  pose proof (dig_bounds m ltac:(lia)) as [Hlo Hhi].
  pose proof (dig_pos m ltac:(lia)) as Hd.
  destruct (Z_lt_le_dec (dig m) (k + 1)) as [Hsmall|Hbig].
  - assert (m < 2 ^ k).
    { assert (2 ^ dig m <= 2 ^ k) by (apply Z.pow_le_mono_r; lia). lia. }
    rewrite Z.div_small by lia. simpl. lia.
  - rewrite Z.max_r by lia. apply Z.le_antisymm.
    + apply dig_lt_pow; [apply Z.div_pos; lia|lia|].
      apply Z.div_lt_upper_bound; [lia|].
      rewrite <- Z.pow_add_r by lia. replace (k + (dig m - k)) with (dig m) by lia. lia.
    + replace (dig m - k) with ((dig m - 1 - k) + 1) by lia.
      apply dig_ge_pow; [lia|].
      apply Z.div_le_lower_bound; [lia|].
      rewrite <- Z.pow_add_r by lia. replace (k + (dig m - 1 - k)) with (dig m - 1) by lia. lia.
Qed.

Lemma code_of_bounds (m : Z) (l : location) :
  4 * m <= code_of m l <= 4 * m + 3 /\ code_of m l / 4 = m.
Proof.
  unfold code_of, code.
  destruct l as [|[]]; simpl shr_m; simpl shr_r; simpl shr_s; cbv iota;
    split; try lia; Z.div_mod_to_equations; lia.
Qed.

Lemma code_of_Exact (m : Z) : code_of m loc_Exact = 4 * m.
Proof. unfold code_of, code. simpl. lia. Qed.

Lemma code_div4 (mrs : shr_record) : code mrs / 4 = shr_m mrs.
Proof.
  unfold code. destruct (shr_r mrs), (shr_s mrs); Z.div_mod_to_equations; lia.
Qed.

Lemma shr_1_code (mrs : shr_record) :
  0 <= shr_m mrs ->
  code (shr_1 mrs) = half_code (code mrs) /\ 0 <= shr_m (shr_1 mrs).
Proof.
  destruct mrs as [m r s]. simpl shr_m. intros Hm.
  unfold half_code, code.
  destruct m as [|[p|p|]|p]; try lia; destruct r, s; simpl shr_1; simpl shr_m;
    simpl shr_r; simpl shr_s; cbv iota;
    (split; [|lia]);
    match goal with
    | |- context [?t mod 4 =? 0] => destruct (Z.eqb_spec (t mod 4) 0)
    end; Z.div_mod_to_equations; lia.
Qed.

Lemma iter_pos_nat {A} (f : A -> A) (p : positive) (x : A) :
  SpecFloat.iter_pos f p x = Nat.iter (Pos.to_nat p) f x.
Proof.
  revert x; induction p as [p IH|p IH|]; intros x; simpl SpecFloat.iter_pos.
  - rewrite !IH, Pos2Nat.inj_xI, <- Nat.iter_succ_r, <- Nat.iter_add.
    f_equal. lia.
  - rewrite !IH, Pos2Nat.inj_xO.
    replace (2 * Pos.to_nat p)%nat with (Pos.to_nat p + Pos.to_nat p)%nat by lia.
    rewrite Nat.iter_add. reflexivity.
  - reflexivity.
Qed.

Lemma iter_shr_1_code (k : nat) (mrs : shr_record) :
  0 <= shr_m mrs ->
  code (Nat.iter k shr_1 mrs) = shift_code k (code mrs)
  /\ 0 <= shr_m (Nat.iter k shr_1 mrs).
Proof.
  intros Hm. induction k as [|k [IHc IHm]]; simpl; [split; [reflexivity|assumption]|].
  destruct (shr_1_code _ IHm) as [Hc Hm']. split; [|assumption].
  rewrite Hc, IHc. reflexivity.
Qed.

Lemma round_nearest_even_code (mrs : shr_record) :
  round_nearest_even (shr_m mrs) (loc_of_shr_record mrs) = round_code (code mrs).
Proof.
  destruct mrs as [m r s]. unfold round_code, code. simpl shr_m; simpl shr_r; simpl shr_s.
  assert (H4 : forall c, 0 <= c < 4 -> (4 * m + c) / 4 = m /\ (4 * m + c) mod 4 = c).
  { intros c Hc. split; Z.div_mod_to_equations; lia. }
  destruct r, s; simpl.
  - destruct (H4 3 ltac:(lia)) as [Hd Hmod].
    replace (4 * m + 2 + 1) with (4 * m + 3) by lia. rewrite Hd, Hmod. reflexivity.
  - destruct (H4 2 ltac:(lia)) as [Hd Hmod].
    replace (4 * m + 2 + 0) with (4 * m + 2) by lia. rewrite Hd, Hmod. reflexivity.
  - destruct (H4 1 ltac:(lia)) as [Hd Hmod].
    replace (4 * m + 0 + 1) with (4 * m + 1) by lia. rewrite Hd, Hmod. reflexivity.
  - destruct (H4 0 ltac:(lia)) as [Hd Hmod].
    replace (4 * m + 0 + 0) with (4 * m + 0) by lia. rewrite Hd, Hmod. reflexivity.
Qed.

Lemma half_code_mono (t1 t2 : Z) : t1 <= t2 -> half_code t1 <= half_code t2.
Proof.
  intros H. unfold half_code.
  destruct (Z.eqb_spec (t1 mod 4) 0), (Z.eqb_spec (t2 mod 4) 0);
    Z.div_mod_to_equations; lia.
Qed.

Lemma half_code_nonneg (t : Z) : 0 <= t -> 0 <= half_code t.
Proof.
  intros H. unfold half_code.
  destruct (Z.eqb_spec (t mod 4) 0); Z.div_mod_to_equations; lia.
Qed.

Lemma half_code_div4 (t : Z) : half_code t / 4 = t / 4 / 2.
Proof.
  unfold half_code.
  destruct (Z.eqb_spec (t mod 4) 0); Z.div_mod_to_equations; lia.
Qed.

Lemma half_code_exact (x : Z) : half_code (4 * (2 * x)) = 4 * x.
Proof.
  unfold half_code.
  replace (4 * (2 * x)) with ((2 * x) * 4) by lia.
  rewrite Z.div_mul, Z.mod_mul by lia. simpl. lia.
Qed.

Lemma shift_code_mono (k : nat) (t1 t2 : Z) :
  t1 <= t2 -> shift_code k t1 <= shift_code k t2.
Proof.
  intros H. induction k as [|k IH]; simpl; [assumption|].
  now apply half_code_mono.
Qed.

Lemma shift_code_nonneg (k : nat) (t : Z) : 0 <= t -> 0 <= shift_code k t.
Proof.
  intros H. induction k as [|k IH]; simpl; [assumption|].
  now apply half_code_nonneg.
Qed.

Lemma shift_code_div4 (k : nat) (t : Z) :
  shift_code k t / 4 = t / 4 / 2 ^ Z.of_nat k.
Proof.
  induction k as [|k IH]; [simpl; now rewrite Z.div_1_r|].
  change (shift_code (S k) t) with (half_code (shift_code k t)).
  rewrite half_code_div4, IH, Nat2Z.inj_succ, Z.pow_succ_r by lia.
  rewrite Z.div_div by (try apply Z.pow_pos_nonneg; lia).
  f_equal. lia.
Qed.

Lemma shift_code_exact (k : nat) (x : Z) :
  shift_code k (4 * (x * 2 ^ Z.of_nat k)) = 4 * x.
Proof.
  revert x; induction k as [|k IH]; intros x.
  - simpl. f_equal. lia.
  - rewrite Nat2Z.inj_succ, Z.pow_succ_r by lia.
    change (shift_code (S k) ?t) with (half_code (shift_code k t)).
    replace (x * (2 * 2 ^ Z.of_nat k)) with ((2 * x) * 2 ^ Z.of_nat k) by lia.
    rewrite IH. apply half_code_exact.
Qed.

Lemma shift_code_add (a b : nat) (t : Z) :
  shift_code (a + b) t = shift_code b (shift_code a t).
Proof.
  unfold shift_code. rewrite Nat.add_comm. apply Nat.iter_add.
Qed.

Lemma round_code_bounds (t : Z) : t / 4 <= round_code t <= t / 4 + 1.
Proof.
  unfold round_code. cbv zeta.
  destruct (t mod 4 <=? 1); [lia|].
  destruct (t mod 4 =? 2); [destruct (Z.even (t / 4))|]; lia.
Qed.

Lemma round_code_exact (x : Z) : round_code (4 * x) = x.
Proof.
  unfold round_code. cbv zeta.
  replace (4 * x) with (x * 4) by lia.
  rewrite Z.div_mul, Z.mod_mul by lia. reflexivity.
Qed.

Lemma round_code_mono (t1 t2 : Z) : t1 <= t2 -> round_code t1 <= round_code t2.
Proof.
  intros H. unfold round_code. cbv zeta.
  destruct (Z.leb_spec (t1 mod 4) 1), (Z.leb_spec (t2 mod 4) 1);
    [Z.div_mod_to_equations; lia| | |].
  - destruct (Z.eqb_spec (t2 mod 4) 2); [destruct (Z.even (t2 / 4))|];
      Z.div_mod_to_equations; lia.
  - destruct (Z.eqb_spec (t1 mod 4) 2); [destruct (Z.even (t1 / 4)) eqn:E1|];
      Z.div_mod_to_equations; lia.
  - destruct (Z.eqb_spec (t1 mod 4) 2), (Z.eqb_spec (t2 mod 4) 2).
    + assert (t1 / 4 <= t2 / 4) by (Z.div_mod_to_equations; lia).
      destruct (Z.eq_dec (t1 / 4) (t2 / 4)) as [->|Hne].
      * destruct (Z.even (t2 / 4)); lia.
      * destruct (Z.even (t1 / 4)), (Z.even (t2 / 4)); lia.
    + destruct (Z.even (t1 / 4)); Z.div_mod_to_equations; lia.
    + destruct (Z.even (t2 / 4)); Z.div_mod_to_equations; lia.
    + Z.div_mod_to_equations; lia.
Qed.

Lemma fexp_fexp64 (e : Z) : fexp prec emax e = fexp64 e.
Proof. reflexivity. Qed.

Lemma fexp64_ge (e : Z) : -1074 <= fexp64 e /\ e - 53 <= fexp64 e.
Proof. unfold fexp64. lia. Qed.

Lemma fexp64_mono (e1 e2 : Z) : e1 <= e2 -> fexp64 e1 <= fexp64 e2.
Proof. unfold fexp64. lia. Qed.

Lemma shr_iter (mrs : shr_record) (e n : Z) :
  0 <= n -> shr mrs e n = (Nat.iter (Z.to_nat n) shr_1 mrs, e + n).
Proof.
  intros Hn. destruct n as [|p|p]; [|simpl|lia].
  - simpl. f_equal. lia.
  - rewrite iter_pos_nat. reflexivity.
Qed.

Lemma shr_fexp_second (m1 E : Z) :
  0 <= m1 <= 2 ^ 53 -> -1074 <= E ->
  let '(mrs, e) := shr_fexp prec emax m1 E loc_Exact in
  pack (shr_m mrs) e = finish m1 E.
Proof.
  intros Hm HE. unfold shr_fexp, finish. rewrite fexp_fexp64.
  destruct (Z.eqb_spec m1 (2 ^ 53)) as [->|Hne].
  - change (2 ^ 53) with 9007199254740992. change (2 ^ 52) with 4503599627370496.
    change (Zdigits2 9007199254740992) with 54. unfold fexp64.
    replace (Z.max (54 + E - 53) (-1074) - E) with 1 by lia. reflexivity.
  - assert (Hd : dig m1 <= 53) by (apply dig_lt_pow; lia).
    fold (dig m1). unfold fexp64.
    destruct (Z.max (dig m1 + E - 53) (-1074) - E) as [|p|p] eqn:En; try lia;
      reflexivity.
Qed.

Lemma bra_structure (m c : Z) (l : location) :
  0 <= m -> c <= fexp64 (dig m + c) ->
  binary_round_aux prec emax false m c l
  = finish (round_code (shift_code (Z.to_nat (fexp64 (dig m + c) - c)) (code_of m l)))
      (fexp64 (dig m + c)).
Proof.
  intros Hm Hc. set (E := fexp64 (dig m + c)) in *.
  unfold binary_round_aux, shr_fexp at 1. rewrite fexp_fexp64. fold (dig m). fold E.
  rewrite shr_iter by lia. replace (c + (E - c)) with E by lia.
  set (k := Z.to_nat (E - c)).
  set (mrs := Nat.iter k shr_1 (shr_record_of_loc m l)).
  assert (Hrec : 0 <= shr_m (shr_record_of_loc m l)) by (destruct l as [|[]]; simpl; lia).
  destruct (iter_shr_1_code k _ Hrec) as [Hcode Hpos]. fold mrs in Hcode, Hpos.
  fold (code_of m l) in Hcode.
  rewrite round_nearest_even_code, Hcode.
  set (t' := shift_code k (code_of m l)).
  assert (Hm' : t' / 4 = m / 2 ^ (E - c)).
  { unfold t'. rewrite shift_code_div4. destruct (code_of_bounds m l) as [_ ->].
    unfold k. rewrite Z2Nat.id by lia. reflexivity. }
  assert (Hlt : t' / 4 < 2 ^ 53).
  { rewrite Hm'. assert (Hd := dig_div m (E - c) Hm ltac:(lia)).
    pose proof (fexp64_ge (dig m + c)) as [_ HE]. fold E in HE.
    assert (0 <= m / 2 ^ (E - c)) by (apply Z.div_pos; [lia|apply Z.pow_pos_nonneg; lia]).
    destruct (Z.eq_dec (m / 2 ^ (E - c)) 0) as [->|Hne]; [lia|].
    pose proof (dig_bounds (m / 2 ^ (E - c)) ltac:(lia)) as [_ Hhi].
    assert (2 ^ dig (m / 2 ^ (E - c)) <= 2 ^ 53) by (apply Z.pow_le_mono_r; lia).
    lia. }
  assert (H0 : 0 <= t' / 4).
  { rewrite Hm'. apply Z.div_pos; [lia|apply Z.pow_pos_nonneg; lia]. }
  pose proof (round_code_bounds t') as Hround.
  pose proof (fexp64_ge (dig m + c)) as [HE _]. fold E in HE.
  pose proof (shr_fexp_second (round_code t') E ltac:(lia) HE) as Hsecond.
  destruct (shr_fexp prec emax (round_code t') E loc_Exact) as [mrs'' e''].
  rewrite <- Hsecond. unfold pack. reflexivity.
Qed.

Lemma pow2_pos (k : Z) : 0 <= k -> 0 < 2 ^ k.
Proof. intros. apply Z.pow_pos_nonneg; lia. Qed.

Lemma pow2_le (a b : Z) : 0 <= a <= b -> 2 ^ a <= 2 ^ b.
Proof. intros. apply Z.pow_le_mono_r; lia. Qed.

Lemma top_split : rank_top = 2 ^ 53 * 2 ^ 2045 /\ rank_top = 2 ^ 52 * 2 ^ 2046.
Proof. unfold rank_top. rewrite <- !Z.pow_add_r by lia. split; reflexivity. Qed.

Lemma pack_props (m e : Z) :
  0 < m < 2 ^ 53 -> -1074 <= e -> (-1074 < e -> 2 ^ 52 <= m) ->
  nonneg (pack m e) = true
  /\ valid_binary (pack m e) = true
  /\ rank (pack m e) = Z.min (m * 2 ^ (e + 1074)) rank_top.
Proof.
  intros Hm He Hnormal. destruct m as [|p|p]; try lia. unfold pack.
  destruct top_split as [Htop1 Htop2].
  destruct (Z.leb_spec e 971) as [Hfin|Hinf].
  - split; [reflexivity|split].
    + unfold valid_binary, bounded, canonical_mantissa.
      rewrite fexp_fexp64. apply andb_true_intro. split; [|apply Z.leb_le; exact Hfin].
      apply Z.eqb_eq. change (Z.pos (digits2_pos p)) with (dig (Z.pos p)).
      assert (dig (Z.pos p) <= 53) by (apply dig_lt_pow; lia).
      unfold fexp64. destruct (Z.eq_dec e (-1074)) as [->|Hne]; [lia|].
      assert (53 <= dig (Z.pos p)) by (apply (dig_ge_pow _ 52); lia).
      lia.
    + simpl rank. rewrite Z.min_l; [reflexivity|].
      assert (2 ^ (e + 1074) <= 2 ^ 2045) by (apply pow2_le; lia).
      assert (0 < 2 ^ (e + 1074)) by (apply pow2_pos; lia).
      rewrite Htop1. nia.
  - split; [reflexivity|split; [reflexivity|]].
    simpl rank. rewrite Z.min_r; [reflexivity|].
    assert (2 ^ 2046 <= 2 ^ (e + 1074)) by (apply pow2_le; lia).
    assert (0 < 2 ^ 2046) by (apply pow2_pos; lia).
    specialize (Hnormal ltac:(lia)). rewrite Htop2. nia.
Qed.

Lemma finish_props (m e : Z) :
  0 <= m <= 2 ^ 53 -> -1074 <= e -> (-1074 < e -> 2 ^ 52 <= m) ->
  nonneg (finish m e) = true
  /\ valid_binary (finish m e) = true
  /\ rank (finish m e) = Z.min (m * 2 ^ (e + 1074)) rank_top.
Proof.
  intros Hm He Hnormal. unfold finish.
  destruct (Z.eqb_spec m (2 ^ 53)) as [->|Hne].
  - destruct (pack_props (2 ^ 52) (e + 1)) as (H1 & H2 & H3); try lia.
    split; [exact H1|split; [exact H2|]]. rewrite H3. f_equal.
    replace (e + 1 + 1074) with (Z.succ (e + 1074)) by lia.
    rewrite Z.pow_succ_r by lia. change (2 ^ 53) with (2 * 2 ^ 52). lia.
  - destruct (Z.eq_dec m 0) as [->|Hpos].
    + simpl. split; [reflexivity|split; [reflexivity|]].
      unfold rank_top. pose proof (pow2_pos 2098). lia.
    + apply pack_props; lia.
Qed.

Lemma shifted_mantissa_bounds (t c : Z) :
  0 <= t -> c <= fexp64 (dig (t / 4) + c) ->
  let E := fexp64 (dig (t / 4) + c) in
  let t' := shift_code (Z.to_nat (E - c)) t in
  0 <= t' / 4 < 2 ^ 53 /\ (-1074 < E -> 2 ^ 52 <= t' / 4).
Proof.
  intros Ht Hc E t'. set (m := t / 4) in *.
  assert (Hm : 0 <= m) by (unfold m; Z.div_mod_to_equations; lia).
  assert (Hm' : t' / 4 = m / 2 ^ (E - c)).
  { unfold t'. rewrite shift_code_div4, Z2Nat.id by lia. reflexivity. }
  rewrite Hm'.
  assert (Hp : 0 < 2 ^ (E - c)) by (apply pow2_pos; lia).
  assert (H0 : 0 <= m / 2 ^ (E - c)) by (apply Z.div_pos; lia).
  assert (Hd := dig_div m (E - c) Hm ltac:(lia)).
  pose proof (fexp64_ge (dig m + c)) as [HE1 HE2]. fold E in HE1, HE2.
  split; [split; [exact H0|]|].
  - destruct (Z.eq_dec (m / 2 ^ (E - c)) 0) as [->|Hne]; [lia|].
    pose proof (dig_bounds (m / 2 ^ (E - c)) ltac:(lia)) as [_ Hhi].
    assert (2 ^ dig (m / 2 ^ (E - c)) <= 2 ^ 53) by (apply pow2_le; split; [apply dig_nonneg|lia]).
    lia.
  - intros Hnormal.
    assert (HE : E = dig m + c - 53) by (unfold E, fexp64 in *; lia).
    assert (Hdm : dig (m / 2 ^ (E - c)) = 53) by lia.
    assert (0 < m / 2 ^ (E - c)).
    { destruct (Z.eq_dec (m / 2 ^ (E - c)) 0) as [Hz|]; [|lia].
      rewrite Hz in Hdm. simpl in Hdm. lia. }
    pose proof (dig_bounds (m / 2 ^ (E - c)) ltac:(lia)) as [Hlo _].
    rewrite Hdm in Hlo. exact Hlo.
Qed.

(** What [binary_round_aux] returns for a mantissa that is not negative: a
    valid float that is not negative, of the rounded value, or infinity. *)
Lemma bra_rank (m c : Z) (l : location) :
  0 <= m -> c <= fexp64 (dig m + c) ->
  nonneg (binary_round_aux prec emax false m c l) = true
  /\ valid_binary (binary_round_aux prec emax false m c l) = true
  /\ rank (binary_round_aux prec emax false m c l)
     = Z.min (rounded (code_of m l) c) rank_top.
Proof.
  intros Hm Hc. rewrite bra_structure by assumption.
  destruct (code_of_bounds m l) as [Ht Hdiv].
  unfold rounded. cbv zeta. rewrite Hdiv.
  pose proof (shifted_mantissa_bounds (code_of m l) c ltac:(lia)) as Hb.
  rewrite Hdiv in Hb. specialize (Hb Hc). cbv zeta in Hb.
  destruct Hb as [Hb1 Hb2].
  pose proof (round_code_bounds
                (shift_code (Z.to_nat (fexp64 (dig m + c) - c)) (code_of m l))) as Hr.
  pose proof (fexp64_ge (dig m + c)) as [HE _].
  apply finish_props; [lia|lia|].
  intros Hn. specialize (Hb2 Hn). lia.
Qed.

Lemma four_div (x : Z) : 4 * x / 4 = x.
Proof. Z.div_mod_to_equations; lia. Qed.

Lemma shift_code_zero (k : nat) : shift_code k 0 = 0.
Proof. induction k as [|k IH]; simpl; [reflexivity|]. rewrite IH. reflexivity. Qed.

(** Rounding is monotone. *)
Lemma rounded_mono (t1 t2 c : Z) :
  0 <= t1 <= t2 ->
  c <= fexp64 (dig (t1 / 4) + c) -> c <= fexp64 (dig (t2 / 4) + c) ->
  rounded t1 c <= rounded t2 c.
Proof.
  intros [H0 Hle] Hc1 Hc2.
  pose proof (shifted_mantissa_bounds t1 c H0 Hc1) as Hb1.
  pose proof (shifted_mantissa_bounds t2 c ltac:(lia) Hc2) as Hb2.
  unfold rounded. cbv zeta in *.
  set (E1 := fexp64 (dig (t1 / 4) + c)) in *.
  set (E2 := fexp64 (dig (t2 / 4) + c)) in *.
  set (s1 := shift_code (Z.to_nat (E1 - c)) t1) in *.
  set (s2 := shift_code (Z.to_nat (E2 - c)) t2) in *.
  assert (HE : E1 <= E2).
  { apply fexp64_mono. assert (dig (t1 / 4) <= dig (t2 / 4)); [|lia].
    apply dig_mono. Z.div_mod_to_equations; lia. }
  pose proof (fexp64_ge (dig (t1 / 4) + c)) as [HE1 _]. fold E1 in HE1.
  pose proof (round_code_bounds s1) as Hr1.
  pose proof (round_code_bounds s2) as Hr2.
  destruct Hb1 as [Hb1 _]. destruct Hb2 as [Hb2 Hn2].
  destruct (Z.eq_dec E1 E2) as [Heq|Hne].
  - assert (Hs : s1 <= s2).
    { unfold s1, s2. rewrite Heq. now apply shift_code_mono. }
    apply round_code_mono in Hs. rewrite <- Heq.
    apply Z.mul_le_mono_nonneg_r; [|exact Hs].
    apply Z.lt_le_incl, pow2_pos. lia.
  - specialize (Hn2 ltac:(lia)).
    assert (Hp1 : 0 < 2 ^ (E1 + 1074)) by (apply pow2_pos; lia).
    assert (Hp : 2 * 2 ^ (E1 + 1074) <= 2 ^ (E2 + 1074)).
    { rewrite <- Z.pow_succ_r by lia. apply pow2_le. lia. }
    change (2 ^ 53) with (2 * 2 ^ 52) in Hb1.
    assert (H52 : 0 < 2 ^ 52) by (apply pow2_pos; lia).
    nia.
Qed.

(** An exact number keeps its rounding when it is written at a lower
    exponent. *)
Lemma rounded_align (X c j : Z) :
  0 <= X -> 0 <= j -> c <= fexp64 (dig X + c) ->
  rounded (4 * (X * 2 ^ j)) (c - j) = rounded (4 * X) c
  /\ c - j <= fexp64 (dig (X * 2 ^ j) + (c - j)).
Proof.
  intros HX Hj Hc. unfold rounded. cbv zeta.
  rewrite !four_div.
  destruct (Z.eq_dec X 0) as [->|Hne].
  - rewrite !Z.mul_0_l, !Z.mul_0_r, !shift_code_zero. simpl dig.
    split; [reflexivity|]. simpl in Hc. unfold fexp64 in *. lia.
  - rewrite dig_shift by lia.
    replace (dig X + j + (c - j)) with (dig X + c) by lia.
    set (E := fexp64 (dig X + c)) in *. split; [|lia].
    f_equal.
    replace (Z.to_nat (E - (c - j))) with (Z.to_nat j + Z.to_nat (E - c))%nat by lia.
    rewrite shift_code_add.
    replace (2 ^ j) with (2 ^ Z.of_nat (Z.to_nat j)) by (rewrite Z2Nat.id; lia).
    rewrite shift_code_exact. reflexivity.
Qed.

(** A number of the format is its own rounding. *)
Lemma rounded_exact (Y c k : Z) :
  0 <= Y -> 0 <= k -> fexp64 (dig (Y * 2 ^ k) + c) = c + k ->
  rounded (4 * (Y * 2 ^ k)) c = Y * 2 ^ (c + k + 1074).
Proof.
  intros HY Hk HE. unfold rounded. cbv zeta.
  rewrite four_div.
  rewrite HE. replace (c + k - c) with k by lia.
  replace (2 ^ k) with (2 ^ Z.of_nat (Z.to_nat k)) by (rewrite Z2Nat.id; lia).
  rewrite shift_code_exact, round_code_exact. reflexivity.
Qed.

Lemma RN_mono (X Y : Z) : 0 <= X <= Y -> RN X <= RN Y.
Proof.
  intros H. unfold RN. apply rounded_mono; [lia| |]; apply fexp64_ge.
Qed.

Lemma RN_aligned (X c : Z) :
  0 <= X -> -1074 <= c -> c <= fexp64 (dig X + c) ->
  RN (X * 2 ^ (c + 1074)) = rounded (4 * X) c.
Proof.
  intros HX Hc Hpre. unfold RN.
  destruct (rounded_align X c (c + 1074) HX ltac:(lia) Hpre) as [Heq _].
  replace (c - (c + 1074)) with (-1074) in Heq by lia. exact Heq.
Qed.

Lemma RN_canonical (m e : Z) :
  0 <= m -> -1074 <= e -> fexp64 (dig m + e) = e ->
  RN (m * 2 ^ (e + 1074)) = m * 2 ^ (e + 1074).
Proof.
  intros Hm He Hcan. rewrite RN_aligned by lia.
  pose proof (rounded_exact m e 0 Hm ltac:(lia)) as H.
  rewrite Z.pow_0_r, Z.mul_1_r, Z.add_0_r in H. apply H. exact Hcan.
Qed.


Lemma RN_saturated : RN ((2 ^ 53 + 1) * 2 ^ 1074) = 2 ^ 53 * 2 ^ 1074.
Proof. vm_compute. reflexivity. Qed.

(** ** Valid floats and their order *)

Lemma valid_finite (s : bool) (m : positive) (e : Z) :
  valid_binary (S754_finite s m e) = true ->
  -1074 <= e <= 971 /\ fexp64 (dig (Zpos m) + e) = e
  /\ Zpos m < 2 ^ 53 /\ (-1074 < e -> 2 ^ 52 <= Zpos m).
Proof.
  unfold valid_binary, bounded, canonical_mantissa. rewrite fexp_fexp64.
  intros H. apply andb_prop in H. destruct H as [Hcan Hmax].
  apply Z.eqb_eq in Hcan. apply Z.leb_le in Hmax.
  change (Z.pos (digits2_pos m)) with (dig (Z.pos m)) in Hcan.
  change (emax - prec) with 971 in Hmax.
  pose proof (dig_bounds (Zpos m) ltac:(lia)) as [Hlo Hhi].
  pose proof (dig_pos (Zpos m) ltac:(lia)) as Hd.
  assert (He : -1074 <= e) by (unfold fexp64 in Hcan; lia).
  assert (Hd53 : dig (Zpos m) <= 53) by (unfold fexp64 in Hcan; lia).
  split; [lia|split; [exact Hcan|split]].
  - assert (2 ^ dig (Zpos m) <= 2 ^ 53) by (apply pow2_le; lia). lia.
  - intros Hn. assert (dig (Zpos m) = 53) by (unfold fexp64 in Hcan; lia).
    replace 52 with (dig (Zpos m) - 1) by lia. exact Hlo.
Qed.

Lemma rank_finite_bounds (m : positive) (e : Z) :
  valid_binary (S754_finite false m e) = true ->
  0 < rank (S754_finite false m e) < rank_top.
Proof.
  intros Hv. destruct (valid_finite _ _ _ Hv) as (He & _ & Hm & _).
  simpl rank. destruct top_split as [Htop _].
  assert (0 < 2 ^ (e + 1074)) by (apply pow2_pos; lia).
  assert (2 ^ (e + 1074) <= 2 ^ 2045) by (apply pow2_le; lia).
  rewrite Htop. nia.
Qed.




(** ** The operations *)

Lemma iter_xO (m d : positive) : Zpos (Pos.iter xO m d) = Zpos m * 2 ^ Zpos d.
Proof.
  induction d as [|d IH] using Pos.peano_ind.
  - simpl. lia.
  - rewrite Pos.iter_succ, Pos2Z.inj_succ, Z.pow_succ_r by lia.
    rewrite Pos2Z.inj_xO, IH. lia.
Qed.

Lemma shl_align_spec (mx : positive) (ex ex' : Z) :
  snd (shl_align mx ex ex') = Z.min ex ex'
  /\ Zpos (fst (shl_align mx ex ex')) = Zpos mx * 2 ^ (ex - Z.min ex ex').
Proof.
  unfold shl_align. destruct (ex' - ex) as [|d|d] eqn:Hd; simpl.
  - replace (Z.min ex ex') with ex by lia. rewrite Z.sub_diag. simpl. lia.
  - replace (Z.min ex ex') with ex by lia. rewrite Z.sub_diag. simpl. lia.
  - replace (Z.min ex ex') with ex' by lia. split; [reflexivity|].
    rewrite iter_xO. f_equal. f_equal. lia.
Qed.

(** Rounding a positive mantissa at an exponent of the format. *)
Lemma binary_round_rank (mx : positive) (ex : Z) :
  -1074 <= ex ->
  nonneg (binary_round prec emax false mx ex) = true
  /\ valid_binary (binary_round prec emax false mx ex) = true
  /\ rank (binary_round prec emax false mx ex)
     = Z.min (RN (Zpos mx * 2 ^ (ex + 1074))) rank_top.
Proof.
  intros Hex. unfold binary_round. rewrite fexp_fexp64.
  change (Z.pos (digits2_pos mx)) with (dig (Z.pos mx)).
  set (E := fexp64 (dig (Zpos mx) + ex)).
  destruct (shl_align_spec mx ex E) as [Hez Hmz].
  destruct (shl_align mx ex E) as [mz ez]. simpl in Hez, Hmz. subst ez.
  set (ez := Z.min ex E) in *.
  pose proof (fexp64_ge (dig (Zpos mx) + ex)) as [HE _]. fold E in HE.
  assert (Hdig : dig (Zpos mz) + ez = dig (Zpos mx) + ex).
  { rewrite Hmz, dig_shift by lia. lia. }
  assert (Hpre : ez <= fexp64 (dig (Zpos mz) + ez)) by (rewrite Hdig; fold E; lia).
  destruct (bra_rank (Zpos mz) ez loc_Exact ltac:(lia) Hpre) as (H1 & H2 & H3).
  split; [exact H1|split; [exact H2|]].
  rewrite H3, code_of_Exact. f_equal.
  rewrite <- RN_aligned by lia. f_equal.
  rewrite Hmz, <- Z.mul_assoc, <- Z.pow_add_r by lia. f_equal. f_equal. lia.
Qed.


Lemma finite_nonneg_bounds (x : spec_float) :
  valid_binary x = true -> finite_nonneg x = true ->
  nonneg x = true /\ 0 <= rank x < rank_top.
Proof.
  destruct x as [s|[]| |[] m e]; simpl; try discriminate; intros Hv _.
  - split; [reflexivity|]. unfold rank_top. pose proof (pow2_pos 2098). lia.
  - split; [reflexivity|]. pose proof (rank_finite_bounds m e Hv). simpl in *. lia.
Qed.

Lemma RN_rank (x : spec_float) :
  valid_binary x = true -> finite_nonneg x = true -> RN (rank x) = rank x.
Proof.
  destruct x as [s|[]| |[] m e]; simpl; try discriminate; intros Hv _.
  - reflexivity.
  - destruct (valid_finite false m e Hv) as (He & Hcan & _).
    apply RN_canonical; lia.
Qed.

(** The sum of two floats that are not negative is the rounding of the sum
    of their values, or infinity. *)
Lemma SFadd_rank (a b : spec_float) :
  valid_binary a = true -> valid_binary b = true ->
  finite_nonneg a = true -> finite_nonneg b = true ->
  nonneg (SF64add a b) = true
  /\ rank (SF64add a b) = Z.min (RN (rank a + rank b)) rank_top.
Proof.
  intros Hva Hvb Ha Hb.
  destruct a as [sa|[]| |[] ma ea]; try discriminate;
    destruct b as [sb|[]| |[] mb eb]; try discriminate.
  - assert (Htop : 0 < rank_top) by (unfold rank_top; apply pow2_pos; lia).
    split; [destruct sa, sb; reflexivity|].
    replace (rank (SF64add (S754_zero sa) (S754_zero sb))) with 0
      by (destruct sa, sb; reflexivity).
    change (RN (rank (S754_zero sa) + rank (S754_zero sb))) with 0. lia.
  - pose proof (finite_nonneg_bounds _ Hvb Hb) as [Hn Hr].
    pose proof (RN_rank _ Hvb Hb) as HRN.
    change (SF64add (S754_zero sa) (S754_finite false mb eb)) with (S754_finite false mb eb).
    split; [exact Hn|]. change (rank (S754_zero sa)) with 0. rewrite Z.add_0_l, HRN. lia.
  - pose proof (finite_nonneg_bounds _ Hva Ha) as [Hn Hr].
    pose proof (RN_rank _ Hva Ha) as HRN.
    change (SF64add (S754_finite false ma ea) (S754_zero sb)) with (S754_finite false ma ea).
    split; [exact Hn|]. change (rank (S754_zero sb)) with 0. rewrite Z.add_0_r, HRN. lia.
  - destruct (valid_finite _ _ _ Hva) as (Hea & _).
    destruct (valid_finite _ _ _ Hvb) as (Heb & _).
    unfold SF64add, SFadd, cond_Zopp. cbv zeta.
    set (ez := Z.min ea eb).
    destruct (shl_align_spec ma ea ez) as [_ Hma].
    destruct (shl_align_spec mb eb ez) as [_ Hmb].
    replace (Z.min ea ez) with ez in Hma by lia.
    replace (Z.min eb ez) with ez in Hmb by lia.
    set (ma' := fst (shl_align ma ea ez)) in *.
    set (mb' := fst (shl_align mb eb ez)) in *.
    change (Z.pos ma' + Z.pos mb') with (Z.pos (ma' + mb')).
    unfold binary_normalize.
    destruct (binary_round_rank (ma' + mb') ez ltac:(lia)) as (H1 & _ & H3).
    split; [exact H1|]. rewrite H3. f_equal. f_equal.
    rewrite Pos2Z.inj_add, Hma, Hmb. simpl rank.
    rewrite Z.mul_add_distr_r, <- !Z.mul_assoc, <- !Z.pow_add_r by lia.
    f_equal; f_equal; f_equal; lia.
Qed.







(** ** Floats between zero and a bound *)

Lemma SFleb_zero_nonneg (x : spec_float) :
  SFleb (S754_zero false) x = true <-> nonneg x = true.
Proof.
  destruct x as [s|[]| |[] m e]; unfold SFleb; simpl; split; congruence.
Qed.

Lemma leb_zero_nonneg (x : float) :
  (0 <=? x)%float = true <-> nonneg (Prim2SF x) = true.
Proof. rewrite FloatAxioms.leb_spec. apply SFleb_zero_nonneg. Qed.







Local Close Scope Z_scope.

(** ** Sums: how the additions are grouped *)

Lemma filter_notna_all (s : list float) :
  Forall (fun x => notna x = true) s -> List.filter notna s = s.
Proof.
  induction 1 as [|x s Hx _ IH]; simpl; [reflexivity|].
  rewrite Hx, IH. reflexivity.
Qed.

(** Terms added one by one extend a sum. *)
Lemma fold_left_sum_of (rest l : list float) (acc : float) :
  sum_of l acc -> sum_of (l ++ rest) (fold_left PrimFloat.add rest acc).
Proof.
  revert l acc. induction rest as [|x rest IH]; intros l acc H.
  - rewrite app_nil_r. exact H.
  - cbn [fold_left].
    replace (l ++ x :: rest) with ((l ++ [x]) ++ rest) by (rewrite <- app_assoc; reflexivity).
    apply IH. apply sum_of_add; [exact H|apply sum_of_one].
Qed.

Lemma add_lanes_length (r chunk : list float) :
  List.length (add_lanes r chunk) = List.length r.
Proof.
  revert chunk. induction r as [|x r IH]; intros [|y chunk]; simpl; auto.
Qed.

Lemma add_lanes_sum_of (lanes : list (list float)) (r chunk : list float) :
  Forall2 sum_of lanes r -> Forall2 sum_of (lane_ext lanes chunk) (add_lanes r chunk).
Proof.
  intros H. revert chunk. induction H as [|l x lanes r Hl Hrest IH]; intros chunk.
  - constructor.
  - destruct chunk as [|y chunk]; simpl.
    + constructor; assumption.
    + constructor; [|apply IH]. apply sum_of_add; [exact Hl|apply sum_of_one].
Qed.

Lemma lane_ext_concat (lanes : list (list float)) (chunk : list float) :
  (List.length chunk <= List.length lanes)%nat ->
  Permutation (concat (lane_ext lanes chunk)) (concat lanes ++ chunk).
Proof.
  revert chunk. induction lanes as [|l lanes IH]; intros [|y chunk] Hlen; simpl in *.
  - reflexivity.
  - lia.
  - rewrite app_nil_r. reflexivity.
  - rewrite (IH chunk) by lia.
    rewrite <- !app_assoc. apply Permutation_app_head.
    simpl. rewrite Permutation_middle. reflexivity.
Qed.

Lemma unrolled_loop_sum_of (blocks : nat) (r a : list float) (lanes : list (list float)) :
  Forall2 sum_of lanes r -> List.length r = 8%nat ->
  (8 * blocks <= List.length a)%nat ->
  exists lanes',
    Forall2 sum_of lanes' (unrolled_loop blocks r a).1
    /\ List.length (unrolled_loop blocks r a).1 = 8%nat
    /\ Permutation (concat lanes' ++ (unrolled_loop blocks r a).2) (concat lanes ++ a).
Proof.
  revert r a lanes. induction blocks as [|blocks IH]; intros r a lanes Hr Hlen Ha.
  - exists lanes. simpl. auto.
  - cbn [unrolled_loop].
    destruct (IH (add_lanes r (firstn 8 a)) (skipn 8 a) (lane_ext lanes (firstn 8 a)))
      as (lanes' & H1 & H2 & H3).
    + now apply add_lanes_sum_of.
    + now rewrite add_lanes_length.
    + rewrite length_skipn. lia.
    + exists lanes'. split; [exact H1|split; [exact H2|]].
      rewrite H3. rewrite lane_ext_concat.
      * rewrite <- app_assoc, firstn_skipn. reflexivity.
      * rewrite length_firstn. apply Forall2_length in Hr. lia.
Qed.

Lemma singletons_sum_of (l : list float) :
  Forall2 sum_of (List.map (fun x => [x]) l) l.
Proof. induction l as [|x l IH]; simpl; constructor; [apply sum_of_one|exact IH]. Qed.

Lemma singletons_concat (l : list float) : concat (List.map (fun x => [x]) l) = l.
Proof. induction l as [|x l IH]; simpl; [reflexivity|now rewrite IH]. Qed.

(** The eight accumulators and the last additions take in every value of
    the array once. *)
Lemma block_sum_sum_of (a : list float) :
  (8 <= List.length a)%nat -> sum_of a (block_sum a).
Proof.
  intros Hn. unfold block_sum.
  pose proof (singletons_sum_of (firstn 8 a)) as Hinit.
  assert (Hlen : List.length (firstn 8 a) = 8%nat) by (rewrite length_firstn; lia).
  assert (Hblocks : (8 * (List.length a / 8 - 1) <= List.length (skipn 8 a))%nat).
  { rewrite length_skipn. pose proof (Nat.Div0.mul_div_le (List.length a) 8). lia. }
  destruct (unrolled_loop_sum_of _ _ _ _ Hinit Hlen Hblocks) as (lanes' & H1 & H2 & H3).
  destruct (unrolled_loop (List.length a / 8 - 1) (firstn 8 a) (skipn 8 a)) as [r rest].
  cbn [fst snd] in *.
  rewrite singletons_concat, firstn_skipn in H3.
  apply (sum_of_perm _ _ _ H3). apply fold_left_sum_of.
  destruct r as [|r0 [|r1 [|r2 [|r3 [|r4 [|r5 [|r6 [|r7 [|]]]]]]]]]; try discriminate.
  inversion H1 as [|l0 ? t0 ? S0 H1a]; subst.
  inversion H1a as [|l1 ? t1 ? S1 H1b]; subst.
  inversion H1b as [|l2 ? t2 ? S2 H1c]; subst.
  inversion H1c as [|l3 ? t3 ? S3 H1d]; subst.
  inversion H1d as [|l4 ? t4 ? S4 H1e]; subst.
  inversion H1e as [|l5 ? t5 ? S5 H1f]; subst.
  inversion H1f as [|l6 ? t6 ? S6 H1g]; subst.
  inversion H1g as [|l7 ? t7 ? S7 H1h]; subst.
  inversion H1h; subst.
  replace (concat [l0; l1; l2; l3; l4; l5; l6; l7])
    with (((l0 ++ l1) ++ (l2 ++ l3)) ++ ((l4 ++ l5) ++ (l6 ++ l7)))
    by (simpl; rewrite app_nil_r, <- !app_assoc; reflexivity).
  repeat apply sum_of_add; assumption.
Qed.

Lemma split_point (n : nat) :
  (128 < n)%nat -> (0 < n / 2 - (n / 2) mod 8 < n)%nat.
Proof.
  intros Hn.
  pose proof (Nat.Div0.mod_le (n / 2) 8).
  pose proof (Nat.mod_upper_bound (n / 2) 8 ltac:(lia)).
  pose proof (Nat.Div0.mul_div_le n 2).
  assert (64 <= n / 2)%nat by (apply (Nat.Div0.div_le_mono 128 n 2); lia).
  lia.
Qed.

(** The pairwise sum adds up exactly the terms of the array; the length of
    the array is fuel enough for the recursion. *)
Lemma pairwise_sum_sum_of (fuel : nat) (a : list float) :
  (List.length a <= fuel + 128)%nat -> sum_of a (pairwise_sum fuel a).
Proof.
  revert a. induction fuel as [|fuel IH]; intros a Hfuel.
  - cbn [pairwise_sum].
    destruct (Nat.ltb_spec (List.length a) 8) as [Hs|Hs].
    + apply (fold_left_sum_of a [] _ sum_of_neg_zero).
    + destruct (Nat.leb_spec (List.length a) 128) as [Hb|Hb]; [|lia].
      now apply block_sum_sum_of.
  - cbn [pairwise_sum].
    destruct (Nat.ltb_spec (List.length a) 8) as [Hs|Hs].
    + apply (fold_left_sum_of a [] _ sum_of_neg_zero).
    + destruct (Nat.leb_spec (List.length a) 128) as [Hb|Hb].
      * now apply block_sum_sum_of.
      * pose proof (split_point _ Hb) as Hn2.
        set (n2 := (List.length a / 2 - (List.length a / 2) mod 8)%nat) in *.
        rewrite <- (firstn_skipn n2 a) at 1.
        apply sum_of_add; apply IH.
        -- rewrite length_firstn. lia.
        -- rewrite length_skipn. lia.
Qed.

Lemma add_reduce_sum_of (a : list float) : sum_of a (add_reduce a).
Proof.
  unfold add_reduce. apply (sum_of_add [] a).
  - apply sum_of_zero.
  - apply pairwise_sum_sum_of. lia.
Qed.

Lemma fillna0_notna (s : list float) :
  Forall (fun x => notna x = true) s -> List.map fillna0 s = s.
Proof.
  induction 1 as [|x s Hx _ IH]; simpl; [reflexivity|].
  rewrite IH. f_equal. unfold fillna0. unfold notna in Hx.
  destruct (PrimFloat.is_nan x); [discriminate|reflexivity].
Qed.

Lemma Series_sum_sum_of (s : list float) : sum_of (List.map fillna0 s) (Series_sum s).
Proof. apply add_reduce_sum_of. Qed.

(** ** Short columns: one scan from left to right *)

Local Open Scope Z_scope.

Lemma binary_round_aux_sign (m c : Z) (l : location) :
  binary_round_aux prec emax true m c l = S754_zero true ->
  binary_round_aux prec emax false m c l = S754_zero false.
Proof.
  unfold binary_round_aux.
  destruct (shr_fexp prec emax m c l) as [mrs' e'].
  destruct (shr_fexp prec emax _ e' loc_Exact) as [mrs'' e''].
  destruct (shr_m mrs'') as [|p|p]; [reflexivity| |discriminate].
  destruct (e'' <=? emax - prec); discriminate.
Qed.

Lemma binary_round_aux_positive_sign (m c : Z) (l : location) :
  binary_round_aux prec emax false m c l <> S754_zero true.
Proof.
  unfold binary_round_aux.
  destruct (shr_fexp prec emax m c l) as [mrs' e'].
  destruct (shr_fexp prec emax _ e' loc_Exact) as [mrs'' e''].
  destruct (shr_m mrs'') as [|p|p]; [discriminate| |discriminate].
  destruct (e'' <=? emax - prec); discriminate.
Qed.

Lemma RN_pos (X : Z) : 1 <= X -> 0 < RN X.
Proof.
  intros HX. pose proof (RN_mono 1 X ltac:(lia)) as H.
  assert (H1 : RN 1 = 1) by (vm_compute; reflexivity). lia.
Qed.

(** Rounding a mantissa that is not zero never gives a negative zero. *)
Lemma binary_round_not_neg_zero (s : bool) (mx : positive) (ex : Z) :
  -1074 <= ex -> binary_round prec emax s mx ex <> S754_zero true.
Proof.
  intros Hex Hz.
  assert (Hpos : binary_round prec emax false mx ex = S754_zero false).
  { destruct s.
    - revert Hz. unfold binary_round.
      destruct (shl_align mx ex _) as [mz ez]. apply binary_round_aux_sign.
    - exfalso. revert Hz. unfold binary_round.
      destruct (shl_align mx ex _) as [mz ez]. apply binary_round_aux_positive_sign. }
  destruct (binary_round_rank mx ex Hex) as (_ & _ & Hr).
  rewrite Hpos in Hr. simpl rank in Hr.
  assert (0 < 2 ^ (ex + 1074)) by (apply pow2_pos; lia).
  pose proof (RN_pos (Z.pos mx * 2 ^ (ex + 1074)) ltac:(nia)).
  assert (0 < rank_top) by (apply pow2_pos; lia). lia.
Qed.

(** A sum is a negative zero only when both terms are. *)
Lemma SFadd_not_neg_zero (x d : spec_float) :
  valid_binary x = true -> valid_binary d = true ->
  x <> S754_zero true -> SF64add x d <> S754_zero true.
Proof.
  intros Hvx Hvd Hx.
  destruct x as [[]|[]| |sx mx ex]; try congruence;
    destruct d as [[]|[]| |sd md ed]; try discriminate.
  destruct (valid_finite _ _ _ Hvx) as (Hex & _).
  destruct (valid_finite _ _ _ Hvd) as (Hed & _).
  unfold SF64add, SFadd. cbv zeta. unfold binary_normalize.
  destruct (cond_Zopp sx _ + cond_Zopp sd _) as [|p|p]; [discriminate| |];
    apply binary_round_not_neg_zero; lia.
Qed.

Lemma SFadd_zero_l (x : spec_float) :
  x <> S754_zero true -> SF64add (S754_zero false) x = x.
Proof. destruct x as [[]|[]| |sx mx ex]; try congruence; reflexivity. Qed.

Local Close Scope Z_scope.

(** Two scans of the same terms, one from [0.0] and one from [-0.0], differ
    by the sign of a zero at most, which adding [0.0] removes. *)
Lemma scan_from_neg_zero (a : list float) (x1 x2 : float) :
  (Prim2SF x1 = Prim2SF x2 /\ Prim2SF x1 <> S754_zero true)
  \/ (Prim2SF x1 = S754_zero false /\ Prim2SF x2 = S754_zero true) ->
  (0 + fold_left PrimFloat.add a x2)%float = fold_left PrimFloat.add a x1.
Proof.
  revert x1 x2. induction a as [|d a IH]; intros x1 x2 H; cbn [fold_left].
  - apply Prim2SF_inj. rewrite FloatAxioms.add_spec.
    change (Prim2SF 0) with (S754_zero false).
    destruct H as [[Heq Hne]|[H1 H2]].
    + rewrite <- Heq. now apply SFadd_zero_l.
    + rewrite H1, H2. reflexivity.
  - apply IH. rewrite !FloatAxioms.add_spec.
    pose proof (Prim2SF_valid d) as Hvd.
    destruct H as [[Heq Hne]|[H1 H2]].
    + left. rewrite <- Heq. split; [reflexivity|].
      apply SFadd_not_neg_zero; [apply Prim2SF_valid|exact Hvd|exact Hne].
    + rewrite H1, H2.
      destruct (Prim2SF d) as [[]|[]| |sd md ed];
        try (left; split; [reflexivity|discriminate]).
      right. split; reflexivity.
Qed.

Lemma pairwise_sum_tiny (fuel : nat) (a : list float) :
  (List.length a < 8)%nat ->
  pairwise_sum fuel a = fold_left PrimFloat.add a PrimFloat.neg_zero.
Proof.
  intros H. destruct fuel; cbn [pairwise_sum];
    (destruct (Nat.ltb_spec (List.length a) 8); [reflexivity|lia]).
Qed.

(** Fewer than eight terms are added up in one scan from [0.0]. *)
Lemma add_reduce_short (a : list float) :
  (List.length a < 8)%nat -> add_reduce a = fold_left PrimFloat.add a 0%float.
Proof.
  intros H. unfold add_reduce. rewrite pairwise_sum_tiny by exact H.
  apply scan_from_neg_zero. right. split; reflexivity.
Qed.

Lemma Series_sum_short (s : list float) :
  Forall (fun x => notna x = true) s -> (List.length s < 8)%nat ->
  Series_sum s = fold_left PrimFloat.add s 0%float.
Proof.
  intros H Hn. unfold Series_sum. rewrite fillna0_notna by exact H.
  now apply add_reduce_short.
Qed.

(** With no missing value a mean divides the sum by the length. *)
Lemma Series_mean_notna (s : list float) :
  Forall (fun x => notna x = true) s -> s <> [] ->
  Series_mean s = (Series_sum s / float_of_count (List.length s))%float.
Proof.
  intros H Hne. unfold Series_mean, Series_count.
  rewrite filter_notna_all by assumption.
  destruct s as [|x s]; [congruence|]. cbn [List.length Nat.ltb Nat.leb]. reflexivity.
Qed.

(** C2. The summary is absent exactly when the subset is empty.  Otherwise
    its total sales and its total profit are sums of exactly the Sales and
    the Profit values of the subset, each taken once (a missing value counts
    as 0.0), and its average discount is such a sum of the Discount values,
    over the number of those that are not missing, times 100.  The additions
    are grouped as numpy groups them; for fewer than eight rows without a
    missing value the three numbers are the plain sums from left to right.
    On the scenario, selecting Region West and Category All gives the first
    row alone with 100, 10 and 10.0; on [ten_rows] the totals are
    10000000000000008 and 1.0 and the average is 26.0. *)
Theorem C2_summary_absent_iff_empty {D} (T : DataFrame D) (r c : str) :
  ((apply T r c).2 = None <-> (apply T r c).1 = [])
  /\ ((apply T r c).1 <> [] ->
      exists stats total,
        (apply T r c).2 = Some stats
        /\ sum_of (List.map fillna0 (column Sales (apply T r c).1)) (total_sales stats)
        /\ sum_of (List.map fillna0 (column Profit (apply T r c).1)) (total_profit stats)
        /\ sum_of (List.map fillna0 (column Discount (apply T r c).1)) total
        /\ avg_discount_percent stats
           = ((if (0 <? Series_count (column Discount (apply T r c).1))%nat
               then total / float_of_count (Series_count (column Discount (apply T r c).1))
               else PrimFloat.nan) * 100)%float)
  /\ (Forall (fun row => notna (Sales row) = true /\ notna (Profit row) = true
                         /\ notna (Discount row) = true) (apply T r c).1 ->
      (apply T r c).1 <> [] ->
      (List.length (apply T r c).1 < 8)%nat ->
      (apply T r c).2
      = Some {| total_sales := fold_left PrimFloat.add (column Sales (apply T r c).1) 0%float;
                total_profit := fold_left PrimFloat.add (column Profit (apply T r c).1) 0%float;
                avg_discount_percent :=
                  (fold_left PrimFloat.add (column Discount (apply T r c).1) 0
                   / float_of_count (List.length (apply T r c).1) * 100)%float |})
  /\ apply scenario (py "West") All
     = ([mkRow (py "West") (py "Furniture") None 100%float 10%float
           0x1.999999999999ap-4%float],
        Some {| total_sales := 100%float; total_profit := 10%float;
                avg_discount_percent := 10%float |})
  /\ apply ten_rows All All
     = (ten_rows,
        Some {| total_sales := 10000000000000008%float; total_profit := 1%float;
                avg_discount_percent := 26%float |}).
Proof.
  unfold apply; cbn [fst snd].
  generalize (filtered_data T r c) as subset. intros subset.
  split; [apply summary_None_iff|].
  split; [|split; [|split; vm_compute; reflexivity]].
  - intros Hne.
    exists (aggregates subset), (Series_sum (column Discount subset)).
    split; [destruct subset; [congruence|reflexivity]|].
    split; [apply Series_sum_sum_of|].
    split; [apply Series_sum_sum_of|].
    split; [apply Series_sum_sum_of|reflexivity].
  - intros Hna Hne Hlen.
    assert (HS : Forall (fun x => notna x = true) (column Sales subset)).
    { unfold column. apply List.Forall_map. revert Hna. apply List.Forall_impl. tauto. }
    assert (HP : Forall (fun x => notna x = true) (column Profit subset)).
    { unfold column. apply List.Forall_map. revert Hna. apply List.Forall_impl. tauto. }
    assert (HD : Forall (fun x => notna x = true) (column Discount subset)).
    { unfold column. apply List.Forall_map. revert Hna. apply List.Forall_impl. tauto. }
    assert (Hcol : forall f : Row D -> float,
               List.length (column f subset) = List.length subset)
      by (intros f; unfold column; apply length_map).
    unfold summary, aggregates, sum_sales, sum_profit, avg_discount_perc.
    replace (empty subset) with false by (destruct subset; [congruence|reflexivity]).
    cbn [negb]. rewrite (Series_mean_notna _ HD).
    + rewrite !Series_sum_short by (try assumption; rewrite Hcol; exact Hlen).
      rewrite Hcol. reflexivity.
    + unfold column. destruct subset; simpl; congruence.
Qed.

Lemma C2_summary_absent_iff_empty_witness :
  (apply scenario All All).1 <> []
  /\ (List.length (apply scenario All All).1 < 8)%nat
  /\ (apply scenario All All).2
     = Some {| total_sales := 300%float; total_profit := 50%float;
               avg_discount_percent := 0x1.e000000000001p+3%float |}.
Proof.
  assert (Hne : (apply scenario All All).1 <> []) by discriminate.
  assert (Hlen : (List.length (apply scenario All All).1 < 8)%nat) by (vm_compute; lia).
  assert (Hna : Forall (fun row => notna (Sales row) = true /\ notna (Profit row) = true
                                   /\ notna (Discount row) = true)
                  (apply scenario All All).1).
  { repeat constructor. }
  split; [exact Hne|split; [exact Hlen|]].
  rewrite (proj1 (proj2 (proj2 (C2_summary_absent_iff_empty scenario All All)))
             Hna Hne Hlen).
  vm_compute. reflexivity.
Defined.

(** From eight values on the grouping is not the scan from left to right:
    on [ten_rows] the scan would give 10000000000000000, 0.9999999999999999
    and 25.999999999999996. *)
Example scan_differs_from_eight_rows :
  fold_left PrimFloat.add (column Sales ten_rows) 0%float = 1e16%float
  /\ fold_left PrimFloat.add (column Profit ten_rows) 0%float = 0x1.fffffffffffffp-1%float
  /\ (fold_left PrimFloat.add (column Discount ten_rows) 0
      / float_of_count (List.length ten_rows) * 100)%float
     = 0x1.9ffffffffffffp+4%float.
Proof. vm_compute. repeat split; reflexivity. Qed.

(** Missing values count as 0.0 in a sum and are left out of the count of a
    mean. *)
Example sum_and_mean_with_missing_values :
  Series_sum [PrimFloat.nan; 1%float; PrimFloat.nan; 2%float] = 3%float
  /\ Series_mean [PrimFloat.nan; 1%float; PrimFloat.nan; 2%float] = 1.5%float
  /\ Series_sum [PrimFloat.nan] = 0%float.
Proof. vm_compute. repeat split; reflexivity. Qed.

(** ** The average discount *)

Local Open Scope Z_scope.

Lemma SFadd_nonneg (a b : spec_float) :
  valid_binary a = true -> valid_binary b = true ->
  nonneg a = true -> nonneg b = true -> nonneg (SF64add a b) = true.
Proof.
  intros Hva Hvb Ha Hb.
  destruct (finite_nonneg a) eqn:Hfa, (finite_nonneg b) eqn:Hfb.
  - now apply SFadd_rank.
  - destruct a as [sa|[]| |[] ma ea]; try discriminate;
      destruct b as [sb|[]| |[] mb eb]; try discriminate; reflexivity.
  - destruct a as [sa|[]| |[] ma ea]; try discriminate;
      destruct b as [sb|[]| |[] mb eb]; try discriminate; reflexivity.
  - destruct a as [sa|[]| |[] ma ea]; try discriminate;
      destruct b as [sb|[]| |[] mb eb]; try discriminate; reflexivity.
Qed.




Lemma sum_of_nonneg (l : list float) (v : float) :
  sum_of l v ->
  Forall (fun d => nonneg (Prim2SF d) = true) l -> nonneg (Prim2SF v) = true.
Proof.
  induction 1 as [| |x|l1 l2 v1 v2 _ IH1 _ IH2|l l' v Hperm _ IH]; intros Hl.
  - reflexivity.
  - reflexivity.
  - now apply List.Forall_inv in Hl.
  - apply List.Forall_app in Hl. destruct Hl as [Hl1 Hl2].
    rewrite FloatAxioms.add_spec.
    apply SFadd_nonneg; try apply Prim2SF_valid; auto.
  - apply IH. apply (Permutation_Forall (Permutation_sym Hperm)). exact Hl.
Qed.


Local Close Scope Z_scope.



(** ** More than 2^53 rows

    The pairwise sum of [n] copies of a value depends on [n] only, and the
    recursion meets few sizes: it is evaluated once per size. *)













(** * Further properties of the script *)

(** ** The dashboard (lines 38 to 84) *)

Section DashboardFacts.
Implicit Types (T store_data : Table) (pick : nat).

Lemma selectbox_run (label : str) (options : list str) pick :
  selectbox label options pick
  = ([StSidebarSelectbox label options], Returned (picked options pick)).
Proof. reflexivity. Qed.

Lemma picked_In (options : list str) pick : In (picked (All :: options) pick) (All :: options).
Proof.
  unfold picked. destruct ((All :: options) !! pick) as [v|] eqn:E.
  - apply (proj1 (list_elem_of_In _ _)). eapply list_elem_of_lookup_2. exact E.
  - now left.
Qed.

(** What a run of the dashboard renders, event by event. *)
Lemma dashboard_run store_data (pick_region pick_category : nat) :
  dashboard store_data pick_region pick_category
  = (dashboard_events store_data
       (picked (region_options store_data) pick_region)
       (picked (category_options store_data) pick_category),
     Returned tt).
Proof.
  unfold dashboard, dashboard_events. rewrite !selectbox_run.
  set (r := picked (region_options store_data) pick_region).
  set (c := picked (category_options store_data) pick_category).
  unfold apply, filtered_data, copy, summary, quick_summary, aggregates.
  cbn -[region_options category_options filter_region filter_category py
        sum_sales sum_profit avg_discount_perc].
  fold r c.
  destruct (str_neqb r All), (str_neqb c All);
    destruct (filter_category c (filter_region r store_data)); reflexivity.
Qed.

End DashboardFacts.

(** ** Options and chosen values *)

Lemma distinctValues_In {D} (f : Row D -> str) (T : DataFrame D) (v : str) :
  In v (distinctValues f T) <-> In v (column f T).
Proof.
  unfold distinctValues, sorted, Series_unique.
  pose proof (StrSort.Permuted_sort (unique_from [] (column f T))) as Hperm.
  split.
  - intros Hv. apply Permutation.Permutation_sym in Hperm.
    apply (Permutation.Permutation_in _ Hperm) in Hv.
    apply unique_from_In in Hv. tauto.
  - intros Hv. apply (Permutation.Permutation_in _ Hperm).
    apply unique_from_In. simpl. tauto.
Qed.

Lemma distinctValues_NoDup {D} (f : Row D -> str) (T : DataFrame D) :
  List.NoDup (distinctValues f T).
Proof.
  unfold distinctValues, sorted, Series_unique.
  eapply Permutation.Permutation_NoDup;
    [apply StrSort.Permuted_sort|apply unique_from_NoDup].
Qed.

Lemma distinctValues_strict {D} (f : Row D -> str) (T : DataFrame D) :
  StronglySorted (fun a b => str_ltb a b = true) (distinctValues f T).
Proof.
  apply strictly_sorted; [|apply distinctValues_NoDup].
  apply StrSort.StronglySorted_sort. exact str_leb_trans.
Qed.

Lemma in_column {D} (f : Row D -> str) (T : DataFrame D) (v : str) :
  In v (column f T) <-> exists row, In row T /\ f row = v.
Proof.
  unfold column. rewrite List.in_map_iff. split; intros (row & H1 & H2); eauto.
Qed.

Lemma picked_from_table (store_data : Table) (pick : nat) :
  (picked (region_options store_data) pick = All
   \/ exists row, In row store_data
                  /\ Region row = picked (region_options store_data) pick)
  /\ (picked (category_options store_data) pick = All
      \/ exists row, In row store_data
                     /\ Category row = picked (category_options store_data) pick).
Proof.
  split.
  - destruct (picked_In (distinctValues Region store_data) pick) as [H|H];
      [left; symmetry; exact H|right].
    apply distinctValues_In, in_column in H. exact H.
  - destruct (picked_In (distinctValues Category store_data) pick) as [H|H];
      [left; symmetry; exact H|right].
    apply distinctValues_In, in_column in H. exact H.
Qed.

(** X1. Whatever position is picked in a drop-down, the value the script
    filters by is ["All"] or a value that some row of the table carries in
    that column: the filters never receive a value foreign to the table. *)
Theorem chosen_value_from_table (store_data : Table) (pick : nat) :
  (picked (region_options store_data) pick = All
   \/ exists row, In row store_data
                  /\ Region row = picked (region_options store_data) pick)
  /\ (picked (category_options store_data) pick = All
      \/ exists row, In row store_data
                     /\ Category row = picked (category_options store_data) pick).
Proof. split; apply (picked_from_table store_data pick). Qed.

(** X2. The drop-down list of a column has a duplicate exactly when the
    column itself holds the string ["All"]: the sentinel is put in front of
    the data values without a check. *)
Theorem options_duplicate_iff_All_in_data {D} (store_data : DataFrame D) :
  (List.NoDup (region_options store_data)
   <-> ~ In All (column Region store_data))
  /\ (List.NoDup (category_options store_data)
      <-> ~ In All (column Category store_data)).
Proof.
  unfold region_options, category_options. simpl app.
  split; rewrite List.NoDup_cons_iff, distinctValues_In;
    pose proof (distinctValues_NoDup Region store_data);
    pose proof (distinctValues_NoDup Category store_data); tauto.
Qed.

Lemma strictly_sorted_head_least (x : str) (l : list str) (y : str) :
  StronglySorted (fun a b => str_ltb a b = true) (x :: l) -> In y (x :: l) ->
  y = x \/ str_ltb x y = true.
Proof.
  intros Hs [->|Hy]; [now left|right].
  inversion Hs as [|? ? _ Hall]; subst.
  rewrite List.Forall_forall in Hall. now apply Hall.
Qed.

Lemma strictly_sorted_unique (l1 l2 : list str) :
  StronglySorted (fun a b => str_ltb a b = true) l1 ->
  StronglySorted (fun a b => str_ltb a b = true) l2 ->
  (forall v, In v l1 <-> In v l2) -> l1 = l2.
Proof.
  revert l2; induction l1 as [|x l1 IH]; intros [|y l2] H1 H2 Hiff.
  - reflexivity.
  - exfalso. apply (proj2 (Hiff y)). now left.
  - exfalso. apply (proj1 (Hiff x)). now left.
  - assert (Hxy : x = y).
    { destruct (strictly_sorted_head_least _ _ x H2 (proj1 (Hiff x) (or_introl eq_refl)))
        as [E|Hlt]; [exact E|].
      destruct (strictly_sorted_head_least _ _ y H1 (proj2 (Hiff y) (or_introl eq_refl)))
        as [E|Hlt']; [now symmetry|].
      pose proof (str_ltb_trans _ _ _ Hlt Hlt') as Hbad.
      rewrite str_ltb_irrefl in Hbad. discriminate. }
    subst y. f_equal.
    inversion H1 as [|? ? Hs1 Hall1]; inversion H2 as [|? ? Hs2 Hall2]; subst.
    apply IH; [assumption|assumption|].
    rewrite List.Forall_forall in Hall1, Hall2.
    intros v. split; intros Hv.
    + destruct (proj1 (Hiff v) (or_intror Hv)) as [<-|Hin]; [|exact Hin].
      specialize (Hall1 _ Hv). rewrite str_ltb_irrefl in Hall1. discriminate.
    + destruct (proj2 (Hiff v) (or_intror Hv)) as [<-|Hin]; [|exact Hin].
      specialize (Hall2 _ Hv). rewrite str_ltb_irrefl in Hall2. discriminate.
Qed.

(** X3. The options of a column depend on the set of its values only: two
    tables whose columns hold the same values, in any order and however
    often, get the same list. *)
Theorem options_depend_on_values_only {D E}
    (f : Row D -> str) (g : Row E -> str) (T : DataFrame D) (T' : DataFrame E) :
  (forall v, In v (column f T) <-> In v (column g T')) ->
  distinctValues f T = distinctValues g T'.
Proof.
  intros Hiff. apply strictly_sorted_unique; try apply distinctValues_strict.
  intros v. rewrite !distinctValues_In. apply Hiff.
Qed.

Lemma options_depend_on_values_only_witness :
  (forall v, In v (column Region scenario) <-> In v (column Region (rev scenario ++ scenario)))
  /\ distinctValues Region scenario = distinctValues Region (rev scenario ++ scenario).
Proof.
  assert (H : forall v, In v (column Region scenario)
                        <-> In v (column Region (rev scenario ++ scenario))).
  { intros v. simpl. tauto. }
  split; [exact H|]. exact (options_depend_on_values_only _ _ _ _ H).
Defined.

(** ** Narrowing and splitting *)

Section SelectionFacts.
Context {D : Type}.
Implicit Types (T : DataFrame D) (r c : str).

Lemma filter_blocks_commute T r c :
  filter_category c (filter_region r T) = filter_region r (filter_category c T).
Proof.
  rewrite !filter_category_filter, !filter_region_filter, !filter_filter_andb.
  apply List.filter_ext. intros row. apply andb_comm.
Qed.

(** X4. A second filter only narrows: the rows for a region and a category
    are, in order, among the rows for the region alone and among the rows
    for the category alone, so the count never grows. *)
Theorem second_filter_narrows T r c :
  sublist (apply T r c).1 (apply T r All).1
  /\ sublist (apply T r c).1 (apply T All c).1
  /\ (List.length (apply T r c).1 <= List.length (apply T r All).1)%nat
  /\ (List.length (apply T r c).1 <= List.length (apply T All c).1)%nat.
Proof.
  assert (H1 : sublist (apply T r c).1 (apply T r All).1).
  { unfold apply; simpl. unfold filtered_data, copy.
    change (filter_category All (filter_region r T)) with (filter_region r T).
    rewrite filter_category_filter. apply filter_sublist. }
  assert (H2 : sublist (apply T r c).1 (apply T All c).1).
  { pose proof (filter_blocks_commute T r c) as Hcomm.
    unfold apply; simpl. unfold filtered_data, copy.
    change (filter_region All T) with T. rewrite Hcomm.
    rewrite filter_region_filter. apply filter_sublist. }
  split; [exact H1|split; [exact H2|split]]; now apply sublist_length.
Qed.

End SelectionFacts.

Section SplitFacts.
Context {D : Type}.
Implicit Types (T : DataFrame D) (r c : str).

Lemma filtered_data_not_All T r c :
  r <> All ->
  filtered_data T r c
  = List.filter (fun row => str_eqb (Region row) r
                            && (str_eqb c All || str_eqb (Category row) c)) T.
Proof.
  intros Hr. rewrite filtered_data_filter. apply List.filter_ext. intros row.
  unfold selected. rewrite (proj2 (str_eqb_neq r All) Hr). reflexivity.
Qed.

Lemma list_sum_indicator (k : str) (L : list str) :
  List.NoDup L -> In k L ->
  list_sum (List.map (fun v => if str_eqb k v then 1 else 0)%nat L) = 1%nat.
Proof.
  induction 1 as [|x L Hx Hnd IH]; intros Hin; [destruct Hin|].
  simpl. destruct Hin as [->|Hin].
  - rewrite str_eqb_refl.
    assert (Hz : list_sum (List.map (fun v => if str_eqb k v then 1 else 0)%nat L) = 0%nat).
    { clear IH Hnd. induction L as [|y L IHL]; [reflexivity|]. simpl.
      destruct (str_eqb k y) eqn:E.
      - apply str_eqb_eq in E. subst y. exfalso. apply Hx. now left.
      - apply IHL. intros H. apply Hx. now right. }
    rewrite Hz. reflexivity.
  - destruct (str_eqb k x) eqn:E.
    + apply str_eqb_eq in E. subst x. contradiction.
    + now rewrite IH.
Qed.

Lemma list_sum_map_add {A} (f g : A -> nat) (L : list A) :
  list_sum (List.map (fun v => f v + g v)%nat L)
  = (list_sum (List.map f L) + list_sum (List.map g L))%nat.
Proof. induction L as [|x L IH]; simpl; [reflexivity|]. rewrite IH. lia. Qed.

Lemma list_sum_map_zero {A} (L : list A) :
  list_sum (List.map (fun _ => 0%nat) L) = 0%nat.
Proof. induction L as [|x L IH]; simpl; auto. Qed.

Lemma count_split_by_key (q : Row D -> bool) (L : list str) T :
  List.NoDup L -> (forall row, In row T -> In (Region row) L) ->
  list_sum (List.map
              (fun v => List.length
                          (List.filter (fun row => str_eqb (Region row) v && q row) T)) L)
  = List.length (List.filter q T).
Proof.
  intros Hnd. induction T as [|row T IH]; intros Hall.
  - simpl. apply list_sum_map_zero.
  - specialize (IH (fun row' H => Hall row' (or_intror H))).
    pose proof (Hall row (or_introl eq_refl)) as Hrow.
    transitivity
      (list_sum (List.map (fun v => (if str_eqb (Region row) v then 1 else 0)
                                    * (if q row then 1 else 0)
                                    + List.length
                                        (List.filter (fun row' => str_eqb (Region row') v
                                                                  && q row') T))%nat L)).
    { f_equal. apply List.map_ext. intros v. simpl.
      destruct (str_eqb (Region row) v), (q row); simpl; lia. }
    rewrite list_sum_map_add, IH. simpl.
    assert (Hone : list_sum (List.map (fun v => (if str_eqb (Region row) v then 1 else 0)
                                                * (if q row then 1 else 0))%nat L)
                   = if q row then 1%nat else 0%nat).
    { destruct (q row).
      - transitivity
          (list_sum (List.map (fun v => if str_eqb (Region row) v then 1 else 0)%nat L));
          [|now apply list_sum_indicator].
        f_equal. apply List.map_ext. intros v.
        destruct (str_eqb (Region row) v); reflexivity.
      - transitivity (list_sum (List.map (fun _ : str => 0%nat) L));
          [|apply list_sum_map_zero].
        f_equal. apply List.map_ext. intros v.
        destruct (str_eqb (Region row) v); reflexivity. }
    rewrite Hone. destruct (q row); simpl; lia.
Qed.

(** X5. When no row has the region ["All"], the regions offered split the
    table: for any category selection, the counts found region by region add
    up to the count found with the region left at ["All"]. *)
Theorem counts_by_region_add_up T c :
  ~ In All (column Region T) ->
  list_sum (List.map (fun r => List.length (apply T r c).1) (distinctValues Region T))
  = List.length (apply T All c).1.
Proof.
  intros HAll. unfold apply; simpl.
  rewrite (filtered_data_filter T All c).
  rewrite <- (count_split_by_key (selected All c) (distinctValues Region T) T).
  - f_equal. apply List.map_ext_in. intros r Hr.
    rewrite filtered_data_not_All
      by (intros ->; apply HAll; now apply distinctValues_In).
    f_equal.
  - apply distinctValues_NoDup.
  - intros row Hrow. apply distinctValues_In. unfold column. now apply List.in_map.
Qed.

End SplitFacts.

Lemma counts_by_region_add_up_witness :
  ~ In All (column Region scenario)
  /\ list_sum (List.map (fun r => List.length (apply scenario r All).1)
                 (distinctValues Region scenario))
     = List.length (apply scenario All All).1.
Proof.
  assert (H : ~ In All (column Region scenario)).
  { simpl. intros [H|[H|[]]]; discriminate. }
  split; [exact H|]. exact (counts_by_region_add_up scenario All H).
Defined.

(** With a region named ["All"] the counts do not add up: picking it shows
    every row. *)
Example counts_with_region_named_All :
  let T := [ mkRow All (py "a") tt 0%float 0%float 0%float;
             mkRow (py "West") (py "a") tt 0%float 0%float 0%float ] in
  list_sum (List.map (fun r => List.length (apply T r All).1) (distinctValues Region T))
  = 3%nat
  /\ List.length (apply T All All).1 = 2%nat.
Proof. split; reflexivity. Qed.

(** X6. One filter alone never empties a table that has rows: for a value
    chosen in the drop-down of a column, with the other column left at
    ["All"], at least one row is found. *)
Theorem single_filter_finds_rows (store_data : Table) (pick : nat) :
  store_data <> [] ->
  (apply store_data (picked (region_options store_data) pick) All).1 <> []
  /\ (apply store_data All (picked (category_options store_data) pick)).1 <> [].
Proof.
  intros Hne.
  assert (Hin : forall (T : Table) row p, In row T -> p row = true -> List.filter p T <> []).
  { intros T row p Hrow Hp Hnil.
    assert (H : In row (List.filter p T)) by (apply List.filter_In; auto).
    rewrite Hnil in H. destruct H. }
  destruct (picked_from_table store_data pick) as [Hr Hc].
  destruct store_data as [|row0 rest] eqn:E; [congruence|]. rewrite <- E in *.
  assert (Hrow0 : In row0 store_data) by (rewrite E; now left).
  unfold apply; simpl. rewrite !filtered_data_filter. split.
  - destruct Hr as [->|(row & Hrow & Heq)].
    + apply (Hin _ row0); [exact Hrow0|reflexivity].
    + apply (Hin _ row); [exact Hrow|].
      unfold selected. rewrite Heq, !str_eqb_refl, orb_true_r. reflexivity.
  - destruct Hc as [->|(row & Hrow & Heq)].
    + apply (Hin _ row0); [exact Hrow0|reflexivity].
    + apply (Hin _ row); [exact Hrow|].
      unfold selected. rewrite Heq, !str_eqb_refl, orb_true_r. reflexivity.
Qed.

Lemma single_filter_finds_rows_witness :
  scenario <> []
  /\ (apply scenario (picked (region_options scenario) 2) All).1 <> []
  /\ (apply scenario All (picked (category_options scenario) 1)).1 <> [].
Proof.
  assert (H : scenario <> []) by discriminate.
  split; [exact H|]. exact (single_filter_finds_rows scenario _ H).
Defined.

(** ** What is rendered *)

(** X7. What the dashboard shows is the engine's result for the two chosen
    values: the count written is the length of the engine's subset and no
    other number, the frame shown is that subset, a metric is rendered
    exactly when the subset has a row, and every metric rendered is one of
    the three numbers of the engine's summary under its label. *)
Theorem dashboard_renders_engine (store_data : Table) (pick_region pick_category : nat) :
  (forall n, In (StWriteFound n) (dashboard store_data pick_region pick_category).1
             <-> n = List.length
                       (apply store_data
                          (picked (region_options store_data) pick_region)
                          (picked (category_options store_data) pick_category)).1)
  /\ (forall df, In (StDataframe df) (dashboard store_data pick_region pick_category).1
                 <-> df = (apply store_data
                             (picked (region_options store_data) pick_region)
                             (picked (category_options store_data) pick_category)).1)
  /\ ((exists label value,
         In (StMetric label value) (dashboard store_data pick_region pick_category).1)
      <-> (apply store_data
             (picked (region_options store_data) pick_region)
             (picked (category_options store_data) pick_category)).1 <> [])
  /\ (forall label value,
        In (StMetric label value) (dashboard store_data pick_region pick_category).1 ->
        exists stats,
          (apply store_data
             (picked (region_options store_data) pick_region)
             (picked (category_options store_data) pick_category)).2 = Some stats
          /\ ((label = py "Total Sales" /\ value = total_sales stats)
              \/ (label = py "Total Profit" /\ value = total_profit stats)
              \/ (label = py "Avg. Discount" /\ value = avg_discount_percent stats))).
Proof.
  rewrite dashboard_run. cbn [fst]. unfold dashboard_events.
  set (r := picked (region_options store_data) pick_region).
  set (c := picked (category_options store_data) pick_category).
  assert (Hsome : (apply store_data r c).2 = None <-> (apply store_data r c).1 = [])
    by apply summary_None_iff.
  set (fd := (apply store_data r c).1) in *.
  destruct ((apply store_data r c).2) as [stats|].
  - assert (Hne : fd <> []) by (intros E; apply Hsome in E; discriminate).
    repeat split.
    + rewrite !List.in_app_iff.
      destruct (str_neqb r All), (str_neqb c All); cbn [In]; intuition congruence.
    + intros ->. rewrite !List.in_app_iff. cbn [In]. tauto.
    + rewrite !List.in_app_iff.
      destruct (str_neqb r All), (str_neqb c All); cbn [In]; intuition congruence.
    + intros ->. rewrite !List.in_app_iff. cbn [In]. tauto.
    + intros _. exact Hne.
    + intros _. exists (py "Total Sales"), (total_sales stats).
      rewrite !List.in_app_iff. cbn [In]. tauto.
    + intros label value Hin. exists stats. split; [reflexivity|].
      rewrite !List.in_app_iff in Hin.
      destruct (str_neqb r All), (str_neqb c All); cbn [In] in Hin;
        intuition congruence.
  - assert (He : fd = []) by (now apply Hsome).
    repeat split.
    + rewrite !List.in_app_iff.
      destruct (str_neqb r All), (str_neqb c All); cbn [In]; intuition congruence.
    + intros ->. rewrite !List.in_app_iff. cbn [In]. tauto.
    + rewrite !List.in_app_iff.
      destruct (str_neqb r All), (str_neqb c All); cbn [In]; intuition congruence.
    + intros ->. rewrite !List.in_app_iff. cbn [In]. tauto.
    + intros (label & value & Hin). exfalso.
      rewrite !List.in_app_iff in Hin.
      destruct (str_neqb r All), (str_neqb c All); cbn [In] in Hin;
        intuition congruence.
    + intros Hne. congruence.
    + intros label value Hin. exfalso.
      rewrite !List.in_app_iff in Hin.
      destruct (str_neqb r All), (str_neqb c All); cbn [In] in Hin;
        intuition congruence.
Qed.

(** X8. Before anything is picked both drop-downs stand on their first
    option, ["All"]: the dashboard shows the whole table and its length, and
    prints no filtering line. *)
Theorem first_view_shows_whole_table (store_data : Table) :
  picked (region_options store_data) 0 = All
  /\ picked (category_options store_data) 0 = All
  /\ (dashboard store_data 0 0).1
     = [ StSidebarHeader ([128269%N] ++ py " Filters");
         StSidebarSelectbox (py "Pick a Region:") (region_options store_data);
         StSidebarSelectbox (py "Pick a Category:") (category_options store_data);
         StHeader (py "Filtered Results");
         StMarkdown All All;
         StWriteFound (List.length store_data);
         StDataframe store_data ]
       ++ match summary store_data with
          | Some stats =>
              [ StSubheader (py "Quick Summary (for filtered data):");
                StColumns 3;
                StMetric (py "Total Sales") (total_sales stats);
                StMetric (py "Total Profit") (total_profit stats);
                StMetric (py "Avg. Discount") (avg_discount_percent stats) ]
          | None => []
          end.
Proof.
  split; [reflexivity|split; [reflexivity|]].
  rewrite dashboard_run. reflexivity.
Qed.

(** ** Sums and means with missing or signed values *)

(** X11. When every Sales cell of the table is missing or not negative, the
    total of any selection is not negative (and so not NaN), also when the
    sum overflows. *)
Theorem total_sales_not_negative {D} (T : DataFrame D) (r c : str) :
  (forall row, In row T ->
     notna (Sales row) = true -> (0 <=? Sales row)%float = true) ->
  (0 <=? sum_sales (apply T r c).1)%float = true.
Proof.
  intros Hrows. unfold apply, sum_sales. cbn [fst].
  apply leb_zero_nonneg.
  apply (sum_of_nonneg _ _ (Series_sum_sum_of _)).
  unfold column. rewrite List.map_map. apply List.Forall_map.
  apply List.Forall_forall. intros row Hrow.
  rewrite filtered_data_filter in Hrow. apply List.filter_In in Hrow.
  destruct Hrow as [Hrow _]. unfold fillna0.
  destruct (PrimFloat.is_nan (Sales row)) eqn:E; [reflexivity|].
  apply leb_zero_nonneg. apply Hrows; [exact Hrow|].
  unfold notna. rewrite E. reflexivity.
Qed.

Lemma total_sales_not_negative_witness :
  (forall row, In row ten_rows ->
     notna (Sales row) = true -> (0 <=? Sales row)%float = true)
  /\ (0 <=? sum_sales (apply ten_rows (py "West") All).1)%float = true.
Proof.
  assert (H : forall row, In row ten_rows ->
                notna (Sales row) = true -> (0 <=? Sales row)%float = true).
  { intros row Hin _. vm_compute in Hin.
    repeat (destruct Hin as [<-|Hin]; [reflexivity|]). destruct Hin. }
  split; [exact H|]. exact (total_sales_not_negative ten_rows (py "West") All H).
Defined.

Lemma filter_notna_none (s : list float) :
  Forall (fun x => PrimFloat.is_nan x = true) s -> List.filter notna s = [].
Proof.
  induction 1 as [|x s Hx _ IH]; simpl; [reflexivity|].
  unfold notna at 1. rewrite Hx. exact IH.
Qed.

(** X12. The guard on emptiness does not look at the cells: for a subset
    that has rows but no Discount value (every cell missing), the summary is
    computed and its average discount is NaN. *)
Theorem average_of_missing_discounts_is_nan {D} (subset : DataFrame D) :
  subset <> [] ->
  (forall row, In row subset -> PrimFloat.is_nan (Discount row) = true) ->
  exists stats, summary subset = Some stats
                /\ PrimFloat.is_nan (avg_discount_percent stats) = true.
Proof.
  intros Hne Hrows. exists (aggregates subset). split.
  - destruct subset; [congruence|reflexivity].
  - unfold aggregates, avg_discount_percent, avg_discount_perc, Series_mean, Series_count.
    rewrite filter_notna_none; [reflexivity|].
    unfold column. apply List.Forall_map. apply List.Forall_forall. exact Hrows.
Qed.

Lemma average_of_missing_discounts_is_nan_witness :
  [mkRow (py "West") (py "Furniture") tt 100%float 10%float PrimFloat.nan] <> []
  /\ exists stats,
       summary [mkRow (py "West") (py "Furniture") tt 100%float 10%float PrimFloat.nan]
       = Some stats
       /\ PrimFloat.is_nan (avg_discount_percent stats) = true.
Proof.
  assert (H : [mkRow (py "West") (py "Furniture") tt 100%float 10%float PrimFloat.nan]
              <> []) by discriminate.
  split; [exact H|].
  apply (average_of_missing_discounts_is_nan _ H).
  intros row [<-|[]]. reflexivity.
Defined.

(** ** Loading and the engine together *)

Section ConversionFacts.
Context {D E : Type}.
Variable convert : Row D -> Row E.
Hypothesis convert_Region : forall row, Region (convert row) = Region row.
Hypothesis convert_Category : forall row, Category (convert row) = Category row.
Hypothesis convert_Sales : forall row, Sales (convert row) = Sales row.
Hypothesis convert_Profit : forall row, Profit (convert row) = Profit row.
Hypothesis convert_Discount : forall row, Discount (convert row) = Discount row.

Lemma filter_map_commute (p : Row E -> bool) (T : DataFrame D) :
  List.filter p (List.map convert T)
  = List.map convert (List.filter (fun row => p (convert row)) T).
Proof.
  induction T as [|row T IH]; simpl; [reflexivity|].
  destruct (p (convert row)); simpl; rewrite IH; reflexivity.
Qed.

Lemma filtered_data_map (T : DataFrame D) (r c : str) :
  filtered_data (List.map convert T) r c = List.map convert (filtered_data T r c).
Proof.
  rewrite !filtered_data_filter, filter_map_commute. f_equal.
  apply List.filter_ext. intros row. unfold selected.
  rewrite convert_Region, convert_Category. reflexivity.
Qed.

Lemma summary_map (T : DataFrame D) : summary (List.map convert T) = summary T.
Proof.
  destruct T as [|row T]; [reflexivity|].
  unfold summary. cbn [List.map empty negb]. f_equal.
  unfold aggregates, sum_sales, sum_profit, avg_discount_perc, column.
  change (convert row :: List.map convert T) with (List.map convert (row :: T)).
  rewrite !List.map_map.
  rewrite (List.map_ext _ _ convert_Sales), (List.map_ext _ _ convert_Profit),
    (List.map_ext _ _ convert_Discount).
  reflexivity.
Qed.

Lemma distinctValues_map (T : DataFrame D) :
  distinctValues Region (List.map convert T) = distinctValues Region T
  /\ distinctValues Category (List.map convert T) = distinctValues Category T.
Proof.
  unfold distinctValues, column. rewrite !List.map_map.
  rewrite (List.map_ext _ _ convert_Region), (List.map_ext _ _ convert_Category).
  split; reflexivity.
Qed.

End ConversionFacts.

Section LoadedFacts.
Variable parse_csv : list Byte.byte -> option (DataFrame (option str)).
Variable strptime : str -> option Timestamp.

(** X13. The conversion of the dates leaves filtering and the summary
    alone: the table [get_data] returns offers the options of the table
    read from the file, selects the converted rows of what that table
    selects, and has the same summary, whatever the dates parse to. *)
Theorem loaded_table_filters_like_file (fs : FileSystem) (file_path : str)
    (content : list Byte.byte) (raw : DataFrame (option str)) :
  fs !! file_path = Some content ->
  parse_csv content = Some raw ->
  exists store_data : Table,
    (get_data parse_csv strptime fs file_path).2 = Returned (Some store_data)
    /\ region_options store_data = region_options raw
    /\ category_options store_data = category_options raw
    /\ forall r c,
         (apply store_data r c).1
         = List.map (fun row => mkRow (Region row) (Category row)
                                  (coerced strptime (Order_Date row))
                                  (Sales row) (Profit row) (Discount row))
             (apply raw r c).1
         /\ (apply store_data r c).2 = (apply raw r c).2.
Proof.
  intros Hfs Hparse. rewrite get_data_cases, Hfs, Hparse.
  eexists. split; [reflexivity|].
  rewrite setitem_Order_Date_map.
  set (convert := fun row : Row (option str) =>
                    mkRow (Region row) (Category row) (coerced strptime (Order_Date row))
                      (Sales row) (Profit row) (Discount row)).
  destruct (distinctValues_map convert (fun _ => eq_refl) (fun _ => eq_refl) raw)
    as [HR HC].
  unfold region_options, category_options. rewrite HR, HC.
  split; [reflexivity|split; [reflexivity|]].
  intros r c. unfold apply. cbn [fst snd].
  rewrite (filtered_data_map convert (fun _ => eq_refl) (fun _ => eq_refl)).
  split; [reflexivity|].
  apply (summary_map convert (fun _ => eq_refl) (fun _ => eq_refl) (fun _ => eq_refl)).
Qed.

End LoadedFacts.

Lemma loaded_table_filters_like_file_witness :
  exists store_data : Table,
    (get_data (fun _ => Some raw_scenario) strptime_mdY
       {[ py "Superstore.csv" := [] ]} (py "Superstore.csv")).2
    = Returned (Some store_data)
    /\ region_options store_data = region_options raw_scenario
    /\ category_options store_data = category_options raw_scenario
    /\ forall r c,
         (apply store_data r c).1
         = List.map (fun row => mkRow (Region row) (Category row)
                                  (coerced strptime_mdY (Order_Date row))
                                  (Sales row) (Profit row) (Discount row))
             (apply raw_scenario r c).1
         /\ (apply store_data r c).2 = (apply raw_scenario r c).2.
Proof.
  apply (loaded_table_filters_like_file (fun _ => Some raw_scenario) strptime_mdY
           {[ py "Superstore.csv" := [] ]} (py "Superstore.csv") [] raw_scenario).
  - reflexivity.
  - reflexivity.
Defined.

(** ** Frames on the heap, again *)

Lemma filtering_logic_fresh {D} (h : heap D) (store_data : loc) (T : DataFrame D)
    (chosen_region chosen_category : str) :
  h !! store_data = Some T ->
  exists (result : loc) (h' : heap D),
    filtering_logic store_data chosen_region chosen_category h = Some (result, h')
    /\ h !! result = None
    /\ h ⊆ h'
    /\ h' !! result = Some (filtered_data T chosen_region chosen_category).
Proof.
  intros Hstore.
  destruct (ref_copy_spec store_data T h Hstore) as (l1 & Hcopy & Hfresh1).
  set (h1 := <[l1 := T]> h) in *.
  assert (Hl1 : h1 !! l1 = Some T) by apply lookup_insert_eq.
  assert (Hsub1 : h ⊆ h1) by now apply insert_subseteq.
  destruct (guarded_block_spec Region (str_neqb chosen_region All) chosen_region
              l1 T h1 Hl1) as (l2 & h2 & Hrun2 & Hsub2 & Hl2 & Hnew2).
  destruct (guarded_block_spec Category (str_neqb chosen_category All) chosen_category
              l2 _ h2 Hl2) as (l3 & h3 & Hrun3 & Hsub3 & Hl3 & Hnew3).
  assert (Hfresh2 : h !! l2 = None).
  { destruct Hnew2 as [->|Hnone]; [exact Hfresh1|].
    destruct (h !! l2) as [df|] eqn:E; [|reflexivity].
    apply (lookup_weaken _ _ _ _ E) in Hsub1. congruence. }
  assert (Hsub12 : h ⊆ h2) by (etrans; eassumption).
  assert (Hfresh3 : h !! l3 = None).
  { destruct Hnew3 as [->|Hnone]; [exact Hfresh2|].
    destruct (h !! l3) as [df|] eqn:E; [|reflexivity].
    apply (lookup_weaken _ _ _ _ E) in Hsub12. congruence. }
  exists l3, h3. split; [|split; [exact Hfresh3|split]].
  - unfold filtering_logic. unfold mbind at 1, HeapOp_bind at 1. rewrite Hcopy.
    unfold mbind at 1, HeapOp_bind at 1. rewrite Hrun2.
    unfold mbind at 1, HeapOp_bind at 1. rewrite Hrun3. reflexivity.
  - etrans; eassumption.
  - rewrite Hl3. reflexivity.
Qed.

(** X14. The frame the engine returns is new: its location was free before
    the run, so no reference held before the run is an alias of the result,
    and the heap has only grown. *)
Theorem engine_result_is_fresh {D} (h : heap D) (store_data : loc) (T : DataFrame D)
    (chosen_region chosen_category : str) :
  h !! store_data = Some T ->
  exists (result : loc) (stats : option SummaryResult) (h' : heap D),
    engine store_data chosen_region chosen_category h = Some ((result, stats), h')
    /\ h !! result = None
    /\ h ⊆ h'.
Proof.
  intros Hstore.
  destruct (filtering_logic_fresh h store_data T chosen_region chosen_category Hstore)
    as (result & h' & Hrun & Hfresh & Hsub & Hres).
  exists result, (summary (filtered_data T chosen_region chosen_category)), h'.
  split; [|split; assumption].
  unfold engine. unfold mbind at 1, HeapOp_bind at 1. rewrite Hrun.
  unfold ref_summary, deref, mbind, HeapOp_bind. rewrite Hres. reflexivity.
Qed.

Lemma engine_result_is_fresh_witness :
  exists (result : loc) (stats : option SummaryResult) (h' : heap (option Timestamp)),
    engine 1%positive (py "West") All {[1%positive := scenario]}
    = Some ((result, stats), h')
    /\ ({[1%positive := scenario]} : heap _) !! result = None
    /\ ({[1%positive := scenario]} : heap _) ⊆ h'.
Proof.
  apply (engine_result_is_fresh {[1%positive := scenario]} 1%positive scenario
           (py "West") All).
  reflexivity.
Defined.
